(** * env.py: the environment report of [show_env] and its helpers

    A shallow embedding of [src/env.py].  Python integers are [Z]; the
    binary64 values that [get_size] produces are dyadic rationals, with the
    rounding of CPython written out; [os.environ] is a finite map from
    strings to strings; the report [rep] is a list of label/value pairs
    built by appends, which [show_env] threads through a small state and
    exception monad together with [opt_mods] and the text written to the
    standard output.

    What the code asks of torch, psutil, platform, subprocess, pip and
    distro is a field of the record [world]; the model quantifies over it.
    Three things are taken for granted: text is ASCII (so [decode] cannot
    fail and [\d], [strip] and [int] see ASCII digits and whitespace only);
    the queries of torch, psutil and platform return; and the floats of
    psutil, which the code only interpolates into text, are given by that
    text. *)

From Stdlib Require Import ZArith Lia Ascii String.
From stdpp Require Import gmap strings list pretty.

(** ** Python values, exceptions and results *)

(** The exceptions that the modelled code can raise. *)
Inductive exn : Type :=
| ValueError (msg : string)
| IndexError (msg : string)
| OverflowError (msg : string)
| ModuleNotFoundError (name : string)
| FileNotFoundError (prog : string)
| CalledProcessError (prog : string) (returncode : Z).

(** The outcome of a pure Python expression: a value, or a raised exception. *)
Inductive result (A : Type) : Type :=
| Ok (a : A)
| Raise (e : exn).
Arguments Ok {A} a.
Arguments Raise {A} e.

#[global] Instance result_ret : MRet result := @Ok.
#[global] Instance result_bind : MBind result := λ A B k r,
  match r with
  | Ok a => k a
  | Raise e => Raise e
  end.

(** ** Floats of [get_size]

    Every finite binary64 value is a dyadic rational; [dnum / 2 ^ dscale]
    with [0 ≤ dscale].  Dividing by 1024 is exact on these values (no
    result of [get_size] comes near the subnormal range), so only the
    conversion of an integer to a float rounds. *)
Record dyadic : Type := Dyadic { dnum : Z; dscale : Z }.

(** The variable [bytes] of [get_size]: an [int] on entry, a [float] after
    the first [bytes /= factor]. *)
Inductive number : Type :=
| PyInt (n : Z)
| PyFloat (x : dyadic).

Section floats.
Local Open Scope Z_scope.

(** Round a non-negative integer to 53 significant bits, ties to even:
    the integer part of CPython's int-to-float conversion and of its
    correctly rounded [int / int]. *)
Definition round53 (n : Z) : Z :=
  let k := Z.log2 n + 1 in
  if k <=? 53 then n
  else
    let sh := k - 53 in
    let q := Z.shiftr n sh in
    let r := Z.land n (Z.ones sh) in
    let half := Z.shiftl 1 (sh - 1) in
    let q' := if (half <? r) || ((r =? half) && Z.odd q) then q + 1 else q in
    Z.shiftl q' sh.

(** [float(n)]: OverflowError when the rounded magnitude leaves the
    binary64 range. *)
Definition float_of_int (n : Z) : result dyadic :=
  let m := round53 (Z.abs n) in
  if 2 ^ 1024 <=? m then Raise (OverflowError "int too large to convert to float")
  else Ok (Dyadic (Z.sgn n * m) 0).

(** [n / 1024] on an [int]: the quotient rounded once to binary64. *)
Definition int_truediv_factor (n : Z) : result dyadic :=
  let m := round53 (Z.abs n) in
  if 2 ^ 1034 <=? m then Raise (OverflowError "integer division result too large for a float")
  else Ok (Dyadic (Z.sgn n * m) 10).

(** [bytes < factor] with [factor = 1024]; Python compares an int and a
    float exactly. *)
Definition lt_factor (bytes : number) : bool :=
  match bytes with
  | PyInt n => n <? 1024
  | PyFloat x => dnum x <? 1024 * 2 ^ dscale x
  end.

(** [bytes /= factor]. *)
Definition div_factor (bytes : number) : result number :=
  match bytes with
  | PyInt n => (x ← int_truediv_factor n ; Ok (PyFloat x))
  | PyFloat x => Ok (PyFloat (Dyadic (dnum x) (dscale x + 10)))
  end.

(** Hundredths of [|x|], rounded half to even on the exact value. *)
Definition hundredths (x : dyadic) : Z :=
  let a := 100 * Z.abs (dnum x) in
  let d := 2 ^ dscale x in
  let q := a / d in
  let r := a mod d in
  if (d <? 2 * r) || ((2 * r =? d) && Z.odd q) then q + 1 else q.

(** [format(x, ".2f")] on a float. *)
Definition format_2f (x : dyadic) : string :=
  let h := hundredths x in
  (if dnum x <? 0 then "-" else "") +:+ pretty (h / 100) +:+ "."
    +:+ pretty (h / 10 mod 10) +:+ pretty (h mod 10).

(** [f"{bytes:.2f}"]: an [int] is converted to a float first. *)
Definition fmt_2f (bytes : number) : result string :=
  match bytes with
  | PyInt n => (x ← float_of_int n ; Ok (format_2f x))
  | PyFloat x => Ok (format_2f x)
  end.
End floats.

(** ** [get_env] (env.py, lines 14-17) *)

(** [os.environ.get(name, '')] followed by the emptiness test on [len(res)]. *)
Definition get_env (environ : gmap string string) (name : string) : string :=
  let res := default "" (environ !! name) in
  if bool_decide (String.length res = 0) then "Unknown" else res.

(** ** [get_size] (env.py, lines 19-30) *)

(** The [for unit in ...] loop.  Running out of units leaves the function
    by its end, which in Python returns [None]. *)
Fixpoint get_size_loop (units : list string) (bytes : number) (suffix : string)
  : result (option string) :=
  match units with
  | [] => Ok None
  | unit :: units' =>
      if lt_factor bytes then
        (s ← fmt_2f bytes ; Ok (Some (s +:+ unit +:+ suffix)))
      else
        (bytes' ← div_factor bytes ; get_size_loop units' bytes' suffix)
  end.

Definition size_units : list string := [""; "K"; "M"; "G"; "T"; "P"].

Definition get_size_with (bytes : Z) (suffix : string) : result (option string) :=
  get_size_loop size_units (PyInt bytes) suffix.

(** [suffix] defaults to ["B"], and no caller passes another. *)
Definition get_size (bytes : Z) : result (option string) :=
  get_size_with bytes "B".

(** ** Strings as the code uses them *)

Definition LF : ascii := "010"%char.
Definition nl : string := String LF "".

(** Whitespace as [str.strip] and [int] see it, on ASCII text. *)
Definition py_isspace (c : ascii) : bool :=
  match c with
  | "009" | "010" | "011" | "012" | "013"
  | "028" | "029" | "030" | "031" | " " => true
  | _ => false
  end%char.

Definition py_isdigit (c : ascii) : bool :=
  bool_decide (is_Some (Ascii.is_nat c)).

Fixpoint lstrip (s : string) : string :=
  match s with
  | String c s' => if py_isspace c then lstrip s' else s
  | EmptyString => EmptyString
  end.

(** [s.strip()] *)
Definition strip (s : string) : string :=
  String.rev (lstrip (String.rev (lstrip s))).

(** [s.split(sep)] for a one-character separator: never the empty list. *)
Fixpoint split (sep : ascii) (s : string) : list string :=
  match s with
  | EmptyString => [EmptyString]
  | String c s' =>
      if bool_decide (c = sep) then EmptyString :: split sep s'
      else match split sep s' with
           | piece :: pieces => String c piece :: pieces
           | [] => [String c EmptyString]
           end
  end.

(** [sep.join(parts)] *)
Fixpoint join (sep : string) (parts : list string) : string :=
  match parts with
  | [] => ""
  | [part] => part
  | part :: parts' => part +:+ sep +:+ join sep parts'
  end.

(** [s.startswith(prefix)] *)
Fixpoint startswith (prefix s : string) : bool :=
  match prefix, s with
  | EmptyString, _ => true
  | String a prefix', String b s' => bool_decide (a = b) && startswith prefix' s'
  | String _ _, EmptyString => false
  end.

(** [f"{s:{width}}"] on a string: padded with spaces on the right, never cut. *)
Definition ljust (s : string) (width : nat) : string :=
  s +:+ string_of_list_ascii (replicate (width - String.length s) " "%char).

(** The digits of a base-10 literal after its sign: digits, with single
    underscores allowed between two digits.  [acc] is the value read so far
    and [prev] tells whether the previous character was a digit. *)
Fixpoint int_digits (s : string) (acc : Z) (prev : bool) : option Z :=
  match s with
  | EmptyString => if prev then Some acc else None
  | String c s' =>
      match Ascii.is_nat c with
      | Some d => int_digits s' (10 * acc + Z.of_nat d)%Z true
      | None =>
          if bool_decide (c = "_"%char) && prev then int_digits s' acc false
          else None
      end
  end.

(** Whitespace as [int] skips it around an ASCII literal: the six
    characters of C's [isspace].  Unlike [str.strip] it keeps the
    separators 0x1c-0x1f, which therefore make the literal invalid. *)
Definition int_isspace (c : ascii) : bool :=
  match c with
  | "009" | "010" | "011" | "012" | "013" | " " => true
  | _ => false
  end%char.

Fixpoint int_lstrip (s : string) : string :=
  match s with
  | String c s' => if int_isspace c then int_lstrip s' else s
  | EmptyString => EmptyString
  end.

Definition int_strip (s : string) : string :=
  String.rev (int_lstrip (String.rev (int_lstrip s))).

(** The number of digit characters of a literal; underscores and the sign
    do not count, leading zeros do. *)
Fixpoint count_digits (s : string) : nat :=
  match s with
  | String c s' => (if py_isdigit c then 1 else 0) + count_digits s'
  | EmptyString => 0
  end.

(** [sys.get_int_max_str_digits()], at the default of CPython 3.11. *)
Definition int_max_str_digits : nat := 4300.

(** [int(x)] on a string: surrounding whitespace is dropped, one sign is
    allowed, and anything else raises ValueError, whose message quotes
    the argument; a valid literal of more than [int_max_str_digits] digits
    raises ValueError too.  (For a literal that is both malformed and too
    long CPython versions differ in which of the two messages they give;
    the model gives the first.) *)
Definition py_int (x : string) : result Z :=
  let body := int_strip x in
  let '(negative, digits) :=
    match body with
    | String "-" digits => (true, digits)
    | String "+" digits => (false, digits)
    | _ => (false, body)
    end in
  match int_digits digits 0 false with
  | Some n =>
      if int_max_str_digits <? count_digits digits then
        Raise (ValueError
                 ("Exceeds the limit (4300 digits) for integer string conversion: value has "
                    +:+ pretty (count_digits digits)
                    +:+ " digits; use sys.set_int_max_str_digits() to increase the limit"))
      else Ok (if negative then Z.opp n else n)
  | None => Raise (ValueError ("invalid literal for int() with base 10: '" +:+ x +:+ "'"))
  end.

(** [re.findall(r'Driver Version: +(\d+\.\d+)', smi)], of which the code
    uses the first element only: the group of the leftmost match.  Each
    quantifier is greedy and no shorter repetition can match where the
    longest fails, so one pass decides a start position. *)
Fixpoint take_digits (s : string) : string * string :=
  match s with
  | String c s' =>
      if py_isdigit c then let '(ds, rest) := take_digits s' in (String c ds, rest)
      else (EmptyString, s)
  | EmptyString => (EmptyString, EmptyString)
  end.

Fixpoint drop_spaces (s : string) : string :=
  match s with
  | String " " s' => drop_spaces s'
  | _ => s
  end.

Fixpoint strip_prefix (prefix s : string) : option string :=
  match prefix, s with
  | EmptyString, _ => Some s
  | String a prefix', String b s' =>
      if bool_decide (a = b) then strip_prefix prefix' s' else None
  | String _ _, EmptyString => None
  end.

Definition driver_version_at (s : string) : option string :=
  match strip_prefix "Driver Version: " s with
  | Some rest =>
      let '(major, rest1) := take_digits (drop_spaces rest) in
      match major, rest1 with
      | String _ _, String "." rest2 =>
          let '(minor, _) := take_digits rest2 in
          match minor with
          | String _ _ => Some (major +:+ "." +:+ minor)
          | EmptyString => None
          end
      | _, _ => None
      end
  | None => None
  end.

Fixpoint findall_driver_version (s : string) : option string :=
  match driver_version_at s with
  | Some g => Some g
  | None =>
      match s with
      | String _ s' => findall_driver_version s'
      | EmptyString => None
      end
  end.

(** ** The report and the state of [show_env] *)

(** The second component of a report entry.  The floats that psutil hands
    over are only ever interpolated into text, so they are carried as the
    text [str] gives for them. *)
Inductive pyval : Type :=
| VNone
| VStr (s : string)
| VInt (n : Z)
| VFloat (repr : string).

(** [f"{v}"] *)
Definition str (v : pyval) : string :=
  match v with
  | VNone => "None"
  | VStr s => s
  | VInt n => pretty n
  | VFloat repr => repr
  end.

(** [v is not None] *)
Definition is_not_None (v : pyval) : bool :=
  match v with
  | VNone => false
  | _ => true
  end.

(** An element [[label, value]] of [rep]. *)
Definition entry : Type := string * pyval.

(** The two lists that [show_env] appends to, and what has been written to
    the standard output so far, one element per write. *)
Record state : Type := State {
  rep : list entry;
  opt_mods : list string;
  out : list string
}.

Definition M (A : Type) : Type := state → result A * state.

#[global] Instance M_ret : MRet M := λ A a st, (Ok a, st).
#[global] Instance M_bind : MBind M := λ A B k m st,
  match m st with
  | (Ok a, st') => k a st'
  | (Raise e, st') => (Raise e, st')
  end.

(** An expression that may raise, evaluated in the current state. *)
Definition lift {A} (r : result A) : M A := λ st, (r, st).

(** [rep.append(e)] *)
Definition rep_append (e : entry) : M unit := λ st,
  (Ok (), State (rep st ++ [e]) (opt_mods st) (out st)).

(** [opt_mods.append(name)] *)
Definition opt_mods_append (name : string) : M unit := λ st,
  (Ok (), State (rep st) (opt_mods st ++ [name]) (out st)).

(** Text that reaches the standard output as it is. *)
Definition write (text : string) : M unit := λ st,
  (Ok (), State (rep st) (opt_mods st) (out st ++ [text])).

(** [print(s)] *)
Definition print (s : string) : M unit := write (s +:+ nl).

(** [print(a, b)]: the arguments separated by one space. *)
Definition print2 (a b : string) : M unit := print (a +:+ " " +:+ b).

Definition get_rep : M (list entry) := λ st, (Ok (rep st), st).
Definition get_opt_mods : M (list string) := λ st, (Ok (opt_mods st), st).

(** [for x in l: body(x)] *)
Fixpoint for_each {A} (l : list A) (body : A → M unit) : M unit :=
  match l with
  | [] => mret ()
  | x :: l' => body x ;; for_each l' body
  end.

(** [if c: body] without an [else]. *)
Definition when (c : bool) (body : M unit) : M unit :=
  if c then body else mret ().

(** [max(l)] on a list of lengths. *)
Definition py_max (l : list nat) : result nat :=
  match l with
  | [] => Raise (ValueError "max() arg is an empty sequence")
  | x :: l' => Ok (foldl Nat.max x l')
  end.

(** [l[i]] *)
Definition py_index {A} (l : list A) (i : nat) : result A :=
  match l !! i with
  | Some x => Ok x
  | None => Raise (IndexError "list index out of range")
  end.

(** ** The external collaborators *)

(** What [subprocess.run] returns, with the captured bytes already decoded
    (the tools print ASCII). *)
Record CompletedProcess : Type := Completed {
  returncode : Z;
  stdout : string
}.

Record torch_api : Type := {
  torch_version : string;              (* torch.__version__ *)
  cuda_is_available : bool;            (* torch.cuda.is_available() *)
  version_cuda : pyval;                (* torch.version.cuda *)
  cudnn_enabled : bool;                (* torch.backends.cudnn.enabled *)
  cudnn_version : pyval;               (* torch.backends.cudnn.version() *)
  cuda_device_count : nat;             (* torch.cuda.device_count() *)
  cuda_get_device_name : nat → string  (* torch.cuda.get_device_name(i) *)
}.

Record psutil_api : Type := {
  cpu_count_physical : pyval;          (* psutil.cpu_count(logical=False) *)
  cpu_count_logical : pyval;           (* psutil.cpu_count(logical=True) *)
  cpu_percent_percpu : list string;    (* psutil.cpu_percent(percpu=True, interval=1) *)
  cpu_percent : string;                (* psutil.cpu_percent() *)
  svmem_total : Z;
  svmem_available : Z;
  svmem_used : Z;
  svmem_percent : string;
  swap_total : Z;
  swap_free : Z;
  swap_used : Z;
  swap_percent : string
}.

Record platform_api : Type := {
  python_version : string;
  machine : string;
  processor : string;
  platform_platform : string;
  node : string;
  system : string;
  uname_version : string
}.

(** Each child process either cannot be started ([Raise]) or completes.
    For the two tools started with [subprocess.call] the text is what the
    child writes to the standard output it inherits. *)
Record subprocess_api : Type := {
  nvidia_smi : result CompletedProcess;
  nvidia_smi_query_gpu : result CompletedProcess;
  sysctl_brand_string : result CompletedProcess;
  lscpu : result CompletedProcess;
  wmic_cpu_get_name : result CompletedProcess
}.

(** The module [distro], when it can be imported. *)
Record distro_module : Type := {
  linux_distribution : list string
}.

(** A module object defines neither [__bool__] nor [__len__]. *)
Definition module_truth (m : distro_module) : bool := true.

Record world : Type := {
  torch : torch_api;
  psutil : psutil_api;
  platform : platform_api;
  subprocess : subprocess_api;
  pip_version : option string;         (* None: [import pip] raises ImportError *)
  distro : option distro_module;       (* None: no module named distro *)
  environ : gmap string string;        (* os.environ *)
  sys_platform : string;
  sys_executable : string;
  sys_path : list string
}.

(** [import_module(name)] for the one name the code asks for. *)
Definition import_module_distro (w : world) : result distro_module :=
  match distro w with
  | Some m => Ok m
  | None => Raise (ModuleNotFoundError "distro")
  end.

(** [subprocess.check_output(cmd)] *)
Definition check_output (prog : string) (r : result CompletedProcess) : result string :=
  c ← r;
  if (returncode c =? 0)%Z then Ok (stdout c)
  else Raise (CalledProcessError prog (returncode c)).

(** [subprocess.call(cmd)]: the child writes to the inherited standard
    output and its return code is the value. *)
Definition call (r : result CompletedProcess) : M Z :=
  c ← lift r;
  write (stdout c) ;;
  mret (returncode c).

(** The truth value of [result.returncode == 0 and result.stdout]. *)
Definition succeeded (c : CompletedProcess) : bool :=
  (returncode c =? 0)%Z && negb (bool_decide (stdout c = "")).

(** The value that [get_size] contributes to an entry. *)
Definition size_value (bytes : Z) : M pyval :=
  r ← lift (get_size bytes);
  mret (match r with Some s => VStr s | None => VNone end).

(** ** [show_env] (env.py, lines 32-181)

    The body is cut where the source has its section comments; the local
    variables that a later part reads are the results of the earlier one. *)

(** Lines 52-57: [have_nvidia_smi].  The bare [except] swallows whatever
    [subprocess.run] raises. *)
Definition have_nvidia_smi (w : world) : bool :=
  match nvidia_smi (subprocess w) with
  | Ok result => succeeded result
  | Raise _ => false
  end.

(** Line 64: [smi], which is assigned, and read, only when
    [have_nvidia_smi] is true. *)
Definition smi (w : world) : string :=
  match nvidia_smi (subprocess w) with
  | Ok result => stdout result
  | Raise _ => ""
  end.

(** Lines 35-76: the two lists, the software section and the probe of
    nvidia-smi. *)
Definition software_section (w : world) : M unit :=
  (λ st, (Ok (), State [] [] (out st))) ;;
  rep_append ("=== Software ===", VNone) ;;
  rep_append ("python", VStr (python_version (platform w))) ;;
  rep_append ("torch", VStr (torch_version (torch w))) ;;
  let info :=
    match pip_version w with
    | Some v => v
    | None => "No pip install"
    end in
  rep_append ("Pip", VStr info) ;;
  when (have_nvidia_smi w)
    match findall_driver_version (smi w) with
    | Some v => rep_append ("nvidia driver", VStr v)
    | None => mret ()
    end ;;
  let available :=
    if cuda_is_available (torch w) then "available" else "**Not available** " in
  rep_append ("torch cuda",
              VStr (str (version_cuda (torch w)) +:+ " / is " +:+ available)) ;;
  when (cuda_is_available (torch w))
    (let enabled :=
       if cudnn_enabled (torch w) then "enabled" else "**Not enabled** " in
     rep_append ("torch cudnn",
                 VStr (str (cudnn_version (torch w)) +:+ " / is " +:+ enabled))).

(** Lines 81-93: the memory of each device as nvidia-smi reports it.  The
    output is parsed in the [else] branch of the [try], which the [except]
    does not cover. *)
Definition query_gpu_memory (w : world) : M (list Z * nat) :=
  if have_nvidia_smi w then
    match nvidia_smi_query_gpu (subprocess w) with
    | Raise _ =>
        print "have nvidia-smi, but failed to query it" ;;
        mret ([], 0)
    | Ok result =>
        if succeeded result then
          let output := stdout result in
          gpu_total_mem ← lift (mapM py_int (split LF (strip output)));
          mret (gpu_total_mem, length gpu_total_mem)
        else mret ([], 0)
    end
  else mret ([], 0).

(** Lines 112-118: the entry named CPU Name. *)
Definition cpu_name (w : world) : M unit :=
  if startswith "darwin" (sys_platform w) then
    text ← lift (check_output "sysctl" (sysctl_brand_string (subprocess w)));
    rep_append ("CPU Name", VStr text)
  else if startswith "linux" (sys_platform w) then
    code ← call (lscpu (subprocess w));
    rep_append ("CPU Name", VInt code)
  else if startswith "win32" (sys_platform w) then
    code ← call (wmic_cpu_get_name (subprocess w));
    rep_append ("CPU Name", VInt code)
  else mret ().

(** Lines 78-141.  Returns [torch_gpu_cnt]. *)
Definition hardware_section (w : world) : M nat :=
  rep_append (nl +:+ "=== Hardware ===", VNone) ;;
  '(gpu_total_mem, nvidia_gpu_cnt) ← query_gpu_memory w;
  when (negb (nvidia_gpu_cnt =? 0))
    (rep_append ("nvidia gpus", VInt (Z.of_nat nvidia_gpu_cnt))) ;;
  let torch_gpu_cnt := cuda_device_count (torch w) in
  (if negb (torch_gpu_cnt =? 0) then
     rep_append ("torch devices", VInt (Z.of_nat torch_gpu_cnt)) ;;
     for_each (seq 0 torch_gpu_cnt) (λ i,
       memory ←
         match gpu_total_mem with
         | [] => mret ""
         | _ :: _ => m ← lift (py_index gpu_total_mem i); mret (pretty m +:+ "MB | ")
         end;
       rep_append ("  - gpu" +:+ pretty i,
                   VStr (memory +:+ cuda_get_device_name (torch w) i)))
   else if negb (nvidia_gpu_cnt =? 0) then
     rep_append ("Have " +:+ pretty nvidia_gpu_cnt
                   +:+ " GPU(s), but torch can't use them (check nvidia driver)", VNone)
   else
     rep_append ("No GPUs available", VNone)) ;;
  rep_append ("machine", VStr (machine (platform w))) ;;
  rep_append ("processor", VStr (processor (platform w))) ;;
  rep_append ("==CPU Info==", VNone) ;;
  cpu_name w ;;
  rep_append ("Physical cores:", cpu_count_physical (psutil w)) ;;
  rep_append ("Total cores:", cpu_count_logical (psutil w)) ;;
  rep_append ("CPU Usage Per Core:", VNone) ;;
  for_each (imap (λ i percentage, (i, percentage)) (cpu_percent_percpu (psutil w)))
    (λ '(i, percentage),
       rep_append ("Core " +:+ pretty i +:+ ": " +:+ percentage +:+ "%", VNone)) ;;
  rep_append ("Total CPU Usage: " +:+ cpu_percent (psutil w) +:+ "%", VNone) ;;
  rep_append ("==Memory Info==", VNone) ;;
  total ← size_value (svmem_total (psutil w));
  rep_append ("Total:", total) ;;
  available ← size_value (svmem_available (psutil w));
  rep_append ("Available:", available) ;;
  used ← size_value (svmem_used (psutil w));
  rep_append ("Used:", used) ;;
  rep_append ("Percentage: %", VFloat (svmem_percent (psutil w))) ;;
  rep_append ("=SWAP=", VNone) ;;
  total ← size_value (swap_total (psutil w));
  rep_append ("Total:", total) ;;
  free ← size_value (swap_free (psutil w));
  rep_append ("Free:", free) ;;
  used ← size_value (swap_used (psutil w));
  rep_append ("Used:", used) ;;
  rep_append ("Percentage: " +:+ swap_percent (psutil w) +:+ "%", VNone) ;;
  mret torch_gpu_cnt.

(** Lines 143-160. *)
Definition environment_section (w : world) : M unit :=
  rep_append (nl +:+ "=== Environment ===", VNone) ;;
  rep_append ("platform", VStr (platform_platform (platform w))) ;;
  rep_append ("Node Name", VStr (node (platform w))) ;;
  when (bool_decide (system (platform w) = "Linux"))
    (distro ← lift (import_module_distro w);
     if module_truth distro then
       rep_append ("distro", VStr (join " " (linux_distribution distro)))
     else
       opt_mods_append "distro" ;;
       rep_append ("distro", VStr (uname_version (platform w)))) ;;
  rep_append ("conda env", VStr (get_env (environ w) "CONDA_DEFAULT_ENV")) ;;
  rep_append ("python", VStr (sys_executable w)) ;;
  rep_append ("sys.path", VStr (join nl (sys_path w))).

(** Line 164: the width of the label column. *)
Definition keylen_of (rep : list entry) : result nat :=
  py_max (List.map (λ e : entry, String.length e.1)
            (List.filter (λ e : entry, is_not_None e.2) rep)).

(** Line 166: the text of one entry. *)
Definition entry_line (keylen : nat) (e : entry) : string * string :=
  (ljust e.1 keylen, if is_not_None e.2 then ": " +:+ str e.2 else "").

(** Lines 168-172: what follows the entries inside the fenced block. *)
Definition gpu_trailer (w : world) (show_nvidia_smi : bool) (torch_gpu_cnt : nat)
  : M unit :=
  if have_nvidia_smi w then
    when show_nvidia_smi (print (nl +:+ smi w))
  else if negb (torch_gpu_cnt =? 0) then print "no nvidia-smi is found"
  else print "no supported gpus found on this system".

Definition opening_fence : string := nl +:+ nl +:+ "```text".
Definition closing_fence : string := "```" +:+ nl.
Definition usage_note : string :=
  "Please make sure to include opening/closing ``` when you paste into forums/github to make the reports appear formatted as code sections." +:+ nl.

(** Lines 162-181. *)
Definition render (w : world) (show_nvidia_smi : bool) (torch_gpu_cnt : nat) : M unit :=
  print opening_fence ;;
  rep ← get_rep;
  keylen ← lift (keylen_of rep);
  for_each rep (λ e, let '(a, b) := entry_line keylen e in print2 a b) ;;
  gpu_trailer w show_nvidia_smi torch_gpu_cnt ;;
  print closing_fence ;;
  print usage_note ;;
  opt_mods ← get_opt_mods;
  when (negb (bool_decide (opt_mods = [])))
    (print "Optional package(s) to enhance the diagnostics can be installed with:" ;;
     print ("pip install " +:+ join " " opt_mods) ;;
     print "Once installed, re-run this utility to get the additional information").

(** Lines 35-160: everything before the first [print] of the report.
    Returns [torch_gpu_cnt], which the rendering reads. *)
Definition build_report (w : world) : M nat :=
  software_section w ;;
  torch_gpu_cnt ← hardware_section w;
  environment_section w ;;
  mret torch_gpu_cnt.

Definition show_env (w : world) (show_nvidia_smi : bool) : M unit :=
  torch_gpu_cnt ← build_report w;
  render w show_nvidia_smi torch_gpu_cnt.

(** A call of [show_env] in a process that has printed nothing yet. *)
Definition initial : state := State [] [] [].

(** ** Sample hosts *)

Definition cpu_torch : torch_api := {|
  torch_version := "2.1.0";
  cuda_is_available := false;
  version_cuda := VNone;
  cudnn_enabled := true;
  cudnn_version := VNone;
  cuda_device_count := 0;
  cuda_get_device_name := λ _, ""
|}.

Definition gpu_torch : torch_api := {|
  torch_version := "2.1.0";
  cuda_is_available := true;
  version_cuda := VStr "12.1";
  cudnn_enabled := true;
  cudnn_version := VInt 8902;
  cuda_device_count := 2;
  cuda_get_device_name := λ i, "Tesla V100 #" +:+ pretty i
|}.

Definition sample_psutil : psutil_api := {|
  cpu_count_physical := VInt 2;
  cpu_count_logical := VInt 4;
  cpu_percent_percpu := ["3.0"; "1.5"; "0.0"; "12.1"];
  cpu_percent := "4.2";
  svmem_total := 16684535808;
  svmem_available := 1253656678;
  svmem_used := 1253656;
  svmem_percent := "92.5";
  swap_total := 0;
  swap_free := 0;
  swap_used := 0;
  swap_percent := "0.0"
|}.

Definition linux_platform : platform_api := {|
  python_version := "3.10.12";
  machine := "x86_64";
  processor := "x86_64";
  platform_platform := "Linux-5.15.0-x86_64-with-glibc2.35";
  node := "box";
  system := "Linux";
  uname_version := "#101-Ubuntu SMP"
|}.

Definition darwin_platform : platform_api := {|
  python_version := "3.10.12";
  machine := "arm64";
  processor := "arm";
  platform_platform := "macOS-14.1-arm64-arm-64bit";
  node := "mac";
  system := "Darwin";
  uname_version := "Darwin Kernel Version 23.1.0"
|}.

Definition not_found (prog : string) : result CompletedProcess :=
  Raise (FileNotFoundError prog).

(** No nvidia-smi on the path; the CPU tools work. *)
Definition no_gpu_tools : subprocess_api := {|
  nvidia_smi := not_found "nvidia-smi";
  nvidia_smi_query_gpu := not_found "nvidia-smi";
  sysctl_brand_string := Ok (Completed 0 ("Apple M1" +:+ nl));
  lscpu := Ok (Completed 0 ("Model name: Intel(R) Xeon(R)" +:+ nl));
  wmic_cpu_get_name := Ok (Completed 0 ("Name" +:+ nl +:+ "Intel(R) Xeon(R)" +:+ nl))
|}.

Definition smi_banner : string :=
  "| NVIDIA-SMI 396.44    Driver Version: 396.44    |" +:+ nl.

(** nvidia-smi works and its memory query prints [answer]. *)
Definition gpu_tools (answer : string) : subprocess_api := {|
  nvidia_smi := Ok (Completed 0 smi_banner);
  nvidia_smi_query_gpu := Ok (Completed 0 answer);
  sysctl_brand_string := Ok (Completed 0 ("Apple M1" +:+ nl));
  lscpu := Ok (Completed 0 ("Model name: Intel(R) Xeon(R)" +:+ nl));
  wmic_cpu_get_name := Ok (Completed 0 ("Name" +:+ nl +:+ "Intel(R) Xeon(R)" +:+ nl))
|}.

Definition ubuntu : distro_module := {|
  linux_distribution := ["Ubuntu"; "22.04"; "jammy"]
|}.

Definition host (t : torch_api) (p : platform_api) (s : subprocess_api)
    (d : option distro_module) (sys_platform : string) : world := {|
  torch := t;
  psutil := sample_psutil;
  platform := p;
  subprocess := s;
  pip_version := Some "23.0";
  distro := d;
  environ := {[ "HOME" := "/root" ]};
  sys_platform := sys_platform;
  sys_executable := "/usr/bin/python3";
  sys_path := [""; "/usr/lib/python3.10"]
|}.

(** A Linux machine without a GPU, with [distro] installed. *)
Definition linux_cpu_host : world :=
  host cpu_torch linux_platform no_gpu_tools (Some ubuntu) "linux".

(** The same machine without [distro]. *)
Definition linux_no_distro_host : world :=
  host cpu_torch linux_platform no_gpu_tools None "linux".

(** A Linux machine with two GPUs whose memory query prints [answer]. *)
Definition linux_gpu_host (answer : string) : world :=
  host gpu_torch linux_platform (gpu_tools answer) (Some ubuntu) "linux".

(** A Mac without a GPU. *)
Definition darwin_host : world :=
  host cpu_torch darwin_platform no_gpu_tools None "darwin".


(** A Linux machine without a GPU on which [lscpu] is not installed. *)
Definition linux_no_lscpu_host : world :=
  host cpu_torch linux_platform
    {| nvidia_smi := not_found "nvidia-smi";
       nvidia_smi_query_gpu := not_found "nvidia-smi";
       sysctl_brand_string := not_found "sysctl";
       lscpu := not_found "lscpu";
       wmic_cpu_get_name := not_found "wmic" |}
    (Some ubuntu) "linux".

(** ** The vocabulary of the statements *)

(** What a step may do to the state when it neither resets the lists nor
    names an optional module: append to [rep] and write to the output. *)
Record grows (st st' : state) : Prop := Grows {
  grows_rep : ∃ suffix, rep st' = rep st ++ suffix;
  grows_opt_mods : opt_mods st' = opt_mods st;
  grows_out : ∃ suffix, out st' = out st ++ suffix
}.

Definition extends {A} (m : M A) : Prop := ∀ st, grows st (m st).2.

(** The text that [print] writes for one entry. *)
Definition entry_text (keylen : nat) (e : entry) : string :=
  ((entry_line keylen e).1 +:+ " " +:+ (entry_line keylen e).2) +:+ nl.

(** The writes of lines 168-172. *)
Definition trailer_text (w : world) (show_nvidia_smi : bool) (torch_gpu_cnt : nat)
  : list string :=
  if have_nvidia_smi w then
    if show_nvidia_smi then [(nl +:+ smi w) +:+ nl] else []
  else if negb (torch_gpu_cnt =? 0) then ["no nvidia-smi is found" +:+ nl]
  else ["no supported gpus found on this system" +:+ nl].

(** The writes of lines 178-181. *)
Definition opt_mods_text (opt_mods : list string) : list string :=
  match opt_mods with
  | [] => []
  | _ :: _ =>
      ["Optional package(s) to enhance the diagnostics can be installed with:" +:+ nl;
       ("pip install " +:+ join " " opt_mods) +:+ nl;
       "Once installed, re-run this utility to get the additional information" +:+ nl]
  end.

(** Everything [render] writes, in the order of the writes. *)
Definition rendered (w : world) (show_nvidia_smi : bool) (torch_gpu_cnt keylen : nat)
    (rep : list entry) (opt_mods : list string) : list string :=
  [opening_fence +:+ nl] ++ map (entry_text keylen) rep
    ++ trailer_text w show_nvidia_smi torch_gpu_cnt
    ++ [closing_fence +:+ nl; usage_note +:+ nl]
    ++ opt_mods_text opt_mods.

(** The position of the first write equal to [text]. *)
Fixpoint index_of (text : string) (out : list string) : option nat :=
  match out with
  | [] => None
  | t :: out' => if bool_decide (t = text) then Some 0 else S <$> index_of text out'
  end.

(** [a] and [b] are both written, [a] first. *)
Definition written_before (a b : string) (out : list string) : bool :=
  match index_of a out, index_of b out with
  | Some i, Some j => i <? j
  | _, _ => false
  end.

(** The order that claim C6 states for the text after the entries: the
    closing fence first, and whatever lines 168-172 write after it. *)
Definition trailer_follows_fence (w : world) (show_nvidia_smi : bool) : Prop :=
  ∀ st' text,
    show_env w show_nvidia_smi initial = (Ok (), st') →
    text ∈ trailer_text w show_nvidia_smi (cuda_device_count (torch w)) →
    written_before (closing_fence +:+ nl) text (out st') = true.

(** The parts of [hardware_section], named so that statements can speak of
    them; [hardware_section_parts] shows that they are its parts. *)

(** Line 103: the body of the loop over the devices. *)
Definition device_line (w : world) (gpu_total_mem : list Z) (i : nat) : M unit :=
  memory ←
    match gpu_total_mem with
    | [] => mret ""
    | _ :: _ => m ← lift (py_index gpu_total_mem i); mret (pretty m +:+ "MB | ")
    end;
  rep_append ("  - gpu" +:+ pretty i,
              VStr (memory +:+ cuda_get_device_name (torch w) i)).

(** Lines 98-108. *)
Definition device_block (w : world) (gpu_total_mem : list Z) (nvidia_gpu_cnt : nat)
  : M unit :=
  let torch_gpu_cnt := cuda_device_count (torch w) in
  if negb (torch_gpu_cnt =? 0) then
    rep_append ("torch devices", VInt (Z.of_nat torch_gpu_cnt)) ;;
    for_each (seq 0 torch_gpu_cnt) (device_line w gpu_total_mem)
  else if negb (nvidia_gpu_cnt =? 0) then
    rep_append ("Have " +:+ pretty nvidia_gpu_cnt
                  +:+ " GPU(s), but torch can't use them (check nvidia driver)", VNone)
  else
    rep_append ("No GPUs available", VNone).

(** Lines 110-141. *)
Definition hardware_tail (w : world) : M nat :=
  rep_append ("machine", VStr (machine (platform w))) ;;
  rep_append ("processor", VStr (processor (platform w))) ;;
  rep_append ("==CPU Info==", VNone) ;;
  cpu_name w ;;
  rep_append ("Physical cores:", cpu_count_physical (psutil w)) ;;
  rep_append ("Total cores:", cpu_count_logical (psutil w)) ;;
  rep_append ("CPU Usage Per Core:", VNone) ;;
  for_each (imap (λ i percentage, (i, percentage)) (cpu_percent_percpu (psutil w)))
    (λ '(i, percentage),
       rep_append ("Core " +:+ pretty i +:+ ": " +:+ percentage +:+ "%", VNone)) ;;
  rep_append ("Total CPU Usage: " +:+ cpu_percent (psutil w) +:+ "%", VNone) ;;
  rep_append ("==Memory Info==", VNone) ;;
  total ← size_value (svmem_total (psutil w));
  rep_append ("Total:", total) ;;
  available ← size_value (svmem_available (psutil w));
  rep_append ("Available:", available) ;;
  used ← size_value (svmem_used (psutil w));
  rep_append ("Used:", used) ;;
  rep_append ("Percentage: %", VFloat (svmem_percent (psutil w))) ;;
  rep_append ("=SWAP=", VNone) ;;
  total ← size_value (swap_total (psutil w));
  rep_append ("Total:", total) ;;
  free ← size_value (swap_free (psutil w));
  rep_append ("Free:", free) ;;
  used ← size_value (swap_used (psutil w));
  rep_append ("Used:", used) ;;
  rep_append ("Percentage: " +:+ swap_percent (psutil w) +:+ "%", VNone) ;;
  mret (cuda_device_count (torch w)).

(** [m] returns (rather than raises) from [st]. *)
Definition ok {A} (m : M A) (st : state) : Prop := ∃ a st', m st = (Ok a, st').

(** [m] returns from every state. *)
Definition total {A} (m : M A) : Prop := ∀ st, ok m st.

(** Whether [m] returns does not depend on the state: [c] tells. *)
Definition decides {A} (m : M A) (c : bool) : Prop := ∀ st, ok m st ↔ c = true.

(** [Q] holds of the value and the state with which [m] returns from [st]. *)
Definition post {A} (m : M A) (st : state) (Q : A → state → Prop) : Prop :=
  ∀ a st', m st = (Ok a, st') → Q a st'.

(** The list that lines 81-93 assign to [gpu_total_mem], or the exception
    of the list comprehension. *)
Definition parsed_memory (w : world) : result (list Z) :=
  if have_nvidia_smi w then
    match nvidia_smi_query_gpu (subprocess w) with
    | Ok result =>
        if succeeded result then mapM py_int (split LF (strip (stdout result)))
        else Ok []
    | Raise _ => Ok []
    end
  else Ok [].

Definition gpu_total_mem_of (w : world) : list Z :=
  match parsed_memory w with
  | Ok mem => mem
  | Raise _ => []
  end.

(** Every line of the memory answer is an integer. *)
Definition memory_answer_ok (w : world) : bool :=
  match parsed_memory w with
  | Ok _ => true
  | Raise _ => false
  end.

(** The memory answer, unless there is none, has a line for every device
    that torch counts. *)
Definition device_lines_ok (mem : list Z) (torch_gpu_cnt : nat) : bool :=
  match mem with
  | [] => true
  | _ :: _ => torch_gpu_cnt <=? length mem
  end.






(** The entry of device [i] (line 103). *)
Definition device_entry (w : world) (mem : list Z) (i : nat) : entry :=
  ("  - gpu" +:+ pretty i,
   VStr (match mem !! i with
         | Some m => pretty m +:+ "MB | "
         | None => ""
         end +:+ cuda_get_device_name (torch w) i)).

(** [m] raises [e] from [st]. *)
Definition fails {A} (m : M A) (st : state) (e : exn) : Prop :=
  ∃ st', m st = (Raise e, st').

(** The entries of lines 98-108 for a memory list [mem]: the count and one
    entry per device, or the line that says why there is none. *)
Definition device_report (w : world) (mem : list Z) : list entry :=
  let torch_gpu_cnt := cuda_device_count (torch w) in
  if negb (torch_gpu_cnt =? 0) then
    ("torch devices", VInt (Z.of_nat torch_gpu_cnt))
      :: map (device_entry w mem) (seq 0 torch_gpu_cnt)
  else if negb (length mem =? 0) then
    [("Have " +:+ pretty (length mem)
        +:+ " GPU(s), but torch can't use them (check nvidia driver)", VNone)]
  else
    [("No GPUs available", VNone)].

(** No entry of [rep] has the label [label]. *)
Definition label_free (label : string) (st : state) : Prop :=
  ∀ e, e ∈ rep st → e.1 ≠ label.

(** [m] appends no entry with the label [label]. *)
Definition avoids (label : string) {A} (m : M A) : Prop :=
  ∀ st, label_free label st → label_free label (m st).2.

(** The text that claim C7 describes for an entry, written without the
    code's helpers: the label, spaces up to [width] (none when the label is
    longer), one space, and for an entry with a value a colon, a space and
    the value; [print] ends the line. *)
Definition spaces (n : nat) : string := string_of_list_ascii (replicate n " "%char).

Definition aligned_text (width : nat) (e : entry) : string :=
  match e.2 with
  | VNone => (e.1 +:+ spaces (width - String.length e.1)) +:+ " " +:+ nl
  | VStr s => (e.1 +:+ spaces (width - String.length e.1)) +:+ " : " +:+ s +:+ nl
  | VInt n => (e.1 +:+ spaces (width - String.length e.1)) +:+ " : " +:+ pretty n +:+ nl
  | VFloat repr => (e.1 +:+ spaces (width - String.length e.1)) +:+ " : " +:+ repr +:+ nl
  end.

(** The text is ASCII, so that [decode('utf-8')] returns it unchanged. *)
Definition is_ascii (s : string) : bool :=
  forallb (λ c, nat_of_ascii c <? 128) (list_ascii_of_string s).

(** What the code decodes (lines 64, 91 and 114) is ASCII. *)
Definition ascii_outputs (w : world) : bool :=
  forallb (λ r : result CompletedProcess,
             match r with
             | Ok c => is_ascii (stdout c)
             | Raise _ => true
             end)
    [nvidia_smi (subprocess w); nvidia_smi_query_gpu (subprocess w);
     sysctl_brand_string (subprocess w)].

(** [str(n)] is within the limit of [int_max_str_digits] digits. *)
Definition short_int (n : Z) : bool :=
  String.length (pretty (Z.abs n)) <=? int_max_str_digits.

Definition printable (v : pyval) : bool :=
  match v with
  | VInt n => short_int n
  | _ => true
  end.

(** The integers that the code interpolates into text are within that
    limit (as the counts and return codes of a real machine are). *)
Definition printable_values (w : world) : bool :=
  printable (version_cuda (torch w))
  && printable (cudnn_version (torch w))
  && printable (cpu_count_physical (psutil w))
  && printable (cpu_count_logical (psutil w))
  && short_int (Z.of_nat (cuda_device_count (torch w)))
  && short_int (Z.of_nat (length (gpu_total_mem_of w)))
  && short_int (Z.of_nat (length (cpu_percent_percpu (psutil w))))
  && forallb (λ r : result CompletedProcess,
                match r with
                | Ok c => short_int (returncode c)
                | Raise _ => true
                end)
       [lscpu (subprocess w); wmic_cpu_get_name (subprocess w)].

(** * Properties *)

(** ** Sanity checks of the string helpers and of a whole run *)

Example strip_ex : strip (" 8192 " +:+ nl) = "8192".
Proof. vm_compute. reflexivity. Qed.
Example split_ex : split LF ("8192" +:+ nl +:+ "16384") = ["8192"; "16384"].
Proof. vm_compute. reflexivity. Qed.
Example py_int_ex : py_int " 16_384" = Ok 16384%Z.
Proof. vm_compute. reflexivity. Qed.
Example py_int_bad : py_int "[N/A]" = Raise (ValueError "invalid literal for int() with base 10: '[N/A]'").
Proof. vm_compute. reflexivity. Qed.
Example py_int_carriage_return : py_int (String "013" "-8192" +:+ String "013" "") = Ok (-8192)%Z.
Proof. vm_compute. reflexivity. Qed.
Example py_int_file_separator :
  strip ("8192" +:+ String "028" "") = "8192" ∧
  ∃ msg, py_int ("8192" +:+ String "028" "") = Raise (ValueError msg).
Proof. split; [vm_compute; reflexivity | eexists; vm_compute; reflexivity]. Qed.
Example py_int_digit_limit :
  (∃ n, py_int (string_of_list_ascii (replicate 4300 "7"%char)) = Ok n) ∧
  (∃ msg, py_int (string_of_list_ascii (replicate 4301 "0"%char)) = Raise (ValueError msg)).
Proof. split; eexists; vm_compute; reflexivity. Qed.
Example driver_ex :
  findall_driver_version "| NVIDIA-SMI 396.44   Driver Version:   396.44.1  |" = Some "396.44".
Proof. vm_compute. reflexivity. Qed.
Example run_linux_cpu : (show_env linux_cpu_host false initial).1 = Ok ().
Proof. vm_compute. reflexivity. Qed.

(** ** [get_env] *)

(** C9: [get_env] returns the value of a variable that is set and not
    empty, and the text Unknown for a variable that is unset or set to the
    empty string. *)
Theorem get_env_value_or_unknown (environ : gmap string string) (name : string) :
  (∀ v, environ !! name = Some v → v ≠ "" → get_env environ name = v) ∧
  (environ !! name = None ∨ environ !! name = Some "" →
   get_env environ name = "Unknown").
Proof.
  unfold get_env. split.
  - intros v -> Hv. simpl. destruct v; [done | reflexivity].
  - intros [-> | ->]; reflexivity.
Qed.

Lemma get_env_value_or_unknown_witness :
  get_env {[ "SET_VAR" := "foo" ]} "SET_VAR" = "foo" ∧
  get_env {[ "SET_VAR" := "foo" ]} "UNSET_VAR_XYZ" = "Unknown" ∧
  get_env {[ "SET_VAR" := "" ]} "SET_VAR" = "Unknown".
Proof.
  split; [| split].
  - apply (proj1 (get_env_value_or_unknown {[ "SET_VAR" := "foo" ]} "SET_VAR")).
    + vm_compute. reflexivity.
    + discriminate.
  - apply (proj2 (get_env_value_or_unknown {[ "SET_VAR" := "foo" ]} "UNSET_VAR_XYZ")).
    left. vm_compute. reflexivity.
  - apply (proj2 (get_env_value_or_unknown {[ "SET_VAR" := "" ]} "SET_VAR")).
    right. vm_compute. reflexivity.
Defined.

(** ** [get_size] *)

(** C8: the two examples of the docstring. *)
Theorem get_size_docstring_examples :
  get_size 1253656 = Ok (Some "1.20MB") ∧
  get_size 1253656678 = Ok (Some "1.17GB").
Proof. split; vm_compute; reflexivity. Qed.

Section get_size_range.
Local Open Scope Z_scope.

(** Rounding to 53 bits never drops below the leading power of two. *)
Lemma round53_lower (n : Z) : 0 < n → 2 ^ Z.log2 n ≤ round53 n.
Proof.
  intros Hn. unfold round53.
  pose proof (Z.log2_spec n Hn) as [Hlo _].
  destruct (Z.leb_spec (Z.log2 n + 1) 53) as [Hk | Hk]; [exact Hlo |].
  set (sh := Z.log2 n + 1 - 53).
  assert (Hsh : 0 < sh) by (unfold sh; lia).
  rewrite Z.shiftl_mul_pow2, Z.shiftr_div_pow2 by lia.
  assert (Hpow : 2 ^ Z.log2 n = 2 ^ 52 * 2 ^ sh).
  { rewrite <- Z.pow_add_r by lia. f_equal. unfold sh. lia. }
  assert (Hd : 0 < 2 ^ sh) by (apply Z.pow_pos_nonneg; lia).
  assert (Hq : 2 ^ 52 ≤ n / 2 ^ sh).
  { apply Z.div_le_lower_bound; [exact Hd |]. lia. }
  rewrite Hpow.
  apply Z.mul_le_mono_nonneg_r; [lia |].
  destruct (_ || _); lia.
Qed.

Lemma round53_large (n : Z) : 2 ^ 60 ≤ n → 2 ^ 60 ≤ round53 n.
Proof.
  intros Hn.
  assert (H0 : 0 < n) by (pose proof (Z.pow_pos_nonneg 2 60); lia).
  etrans; [| apply round53_lower; exact H0].
  apply Z.pow_le_mono_r; [lia |].
  apply Z.log2_le_pow2; [exact H0 | exact Hn].
Qed.

Lemma get_size_loop_cons (unit : string) (units : list string) (bytes : number)
    (suffix : string) :
  get_size_loop (unit :: units) bytes suffix =
  if lt_factor bytes then s ← fmt_2f bytes; Ok (Some (s +:+ unit +:+ suffix))
  else bytes' ← div_factor bytes; get_size_loop units bytes' suffix.
Proof. reflexivity. Qed.

(** A float that is still at least 1024 after every remaining unit leaves
    the loop by its end. *)
Lemma get_size_loop_exhausted (units : list string) (m s : Z) (suffix : string) :
  0 ≤ s →
  2 ^ (s + 10 * Z.of_nat (length units)) ≤ m →
  get_size_loop units (PyFloat (Dyadic m s)) suffix = Ok None.
Proof.
  revert s. induction units as [| unit units IH]; intros s Hs Hm; [reflexivity |].
  rewrite get_size_loop_cons. cbn [lt_factor dnum dscale].
  rewrite length_cons, Nat2Z.inj_succ in Hm.
  assert (Hstep : 1024 * 2 ^ s ≤ m).
  { etrans; [| exact Hm].
    replace (s + 10 * Z.succ (Z.of_nat (length units)))
      with (10 + s + 10 * Z.of_nat (length units)) by lia.
    rewrite !Z.pow_add_r by lia.
    change (2 ^ 10) with 1024.
    assert (0 < 2 ^ s) by (apply Z.pow_pos_nonneg; lia).
    assert (1 ≤ 2 ^ (10 * Z.of_nat (length units)))
      by (pose proof (Z.pow_pos_nonneg 2 (10 * Z.of_nat (length units))); lia).
    nia. }
  destruct (Z.ltb_spec m (1024 * 2 ^ s)) as [Hlt | _]; [lia |].
  cbn [div_factor dnum dscale mbind result_bind].
  apply IH; [lia |].
  replace (s + 10 + 10 * Z.of_nat (length units))
    with (s + 10 * Z.succ (Z.of_nat (length units))) by lia.
  exact Hm.
Qed.

(** C1: from 1024^6 bytes on, [get_size] returns no string.  The loop
    runs out of units and the function returns [None], or, for an integer
    beyond the range of a float, the first division raises
    OverflowError. *)
Theorem get_size_beyond_units (b : Z) :
  1024 ^ 6 ≤ b →
  get_size b = Ok None ∨ ∃ msg, get_size b = Raise (OverflowError msg).
Proof.
  intros Hb. change (1024 ^ 6) with (2 ^ 60) in Hb.
  assert (H0 : 0 < b) by (pose proof (Z.pow_pos_nonneg 2 60); lia).
  unfold get_size, get_size_with, size_units.
  rewrite get_size_loop_cons. cbn [lt_factor].
  destruct (Z.ltb_spec b 1024) as [Hlt | _].
  { pose proof (Z.pow_le_mono_r 2 10 60). change (2 ^ 10) with 1024 in *. lia. }
  cbn [div_factor]. unfold int_truediv_factor.
  rewrite (Z.abs_eq b) by lia.
  destruct (2 ^ 1034 <=? round53 b); [right; eexists; reflexivity |].
  left. cbn [mbind result_bind].
  rewrite (Z.sgn_pos b H0), Z.mul_1_l.
  apply get_size_loop_exhausted; [lia |].
  apply round53_large, Hb.
Qed.

Lemma get_size_beyond_units_witness :
  get_size (1024 ^ 6) = Ok None ∨
  ∃ msg, get_size (1024 ^ 6) = Raise (OverflowError msg).
Proof. apply (get_size_beyond_units (1024 ^ 6)). lia. Defined.
(** *** Below the last unit the result is a formatted string *)

Lemma round53_small (n : Z) : 0 ≤ n < 2 ^ 53 → round53 n = n.
Proof.
  intros [H0 Hn]. unfold round53.
  destruct (Z.leb_spec (Z.log2 n + 1) 53) as [_ | Hk]; [reflexivity |].
  destruct (Z.eq_dec n 0) as [-> | Hne]; [done |].
  assert (Z.log2 n < 53) by (apply Z.log2_lt_pow2; lia). lia.
Qed.

(** Up to [2^60 - 65] the rounding stays below [2^60]; from [2^60 - 64]
    on it reaches [2^60]. *)
Lemma round53_below (n : Z) : 0 ≤ n < 2 ^ 60 - 64 → 0 ≤ round53 n < 2 ^ 60.
Proof.
  intros [H0 Hn]. unfold round53.
  destruct (Z.leb_spec (Z.log2 n + 1) 53) as [_ | Hk]; [lia |].
  assert (Hpos : 0 < n).
  { destruct (Z.eq_dec n 0) as [-> | ?]; [done | lia]. }
  assert (Hlog : Z.log2 n < 60) by (apply Z.log2_lt_pow2; lia).
  pose proof (Z.log2_spec n Hpos) as [_ Hhi].
  set (sh := Z.log2 n + 1 - 53) in *.
  replace (Z.succ (Z.log2 n)) with (53 + sh) in Hhi by (unfold sh; lia).
  rewrite Z.shiftl_mul_pow2, Z.shiftr_div_pow2, Z.land_ones, Z.shiftl_1_l by lia.
  assert (Hd : 0 < 2 ^ sh) by (apply Z.pow_pos_nonneg; lia).
  pose proof (Z.div_mod n (2 ^ sh) ltac:(lia)) as Hdm.
  pose proof (Z.mod_pos_bound n (2 ^ sh) Hd) as Hr.
  set (q := n / 2 ^ sh) in *. set (r := n mod 2 ^ sh) in *.
  assert (Hcases : sh = 1 ∨ sh = 2 ∨ sh = 3 ∨ sh = 4 ∨ sh = 5 ∨ sh = 6 ∨ sh = 7)
    by (unfold sh; lia).
  destruct ((2 ^ (sh - 1) <? r) || ((r =? 2 ^ (sh - 1)) && Z.odd q)) eqn:Hup.
  - assert (Hhalf : 2 ^ (sh - 1) ≤ r).
    { apply orb_true_iff in Hup as [Hlt%Z.ltb_lt | [Heq%Z.eqb_eq _]%andb_true_iff]; lia. }
    destruct Hcases as [-> | [-> | [-> | [-> | [-> | [-> | ->]]]]]];
      cbn in Hhalf, Hhi, Hdm, Hr |- *; lia.
  - destruct Hcases as [-> | [-> | [-> | [-> | [-> | [-> | ->]]]]]];
      cbn in Hhi, Hdm, Hr |- *; lia.
Qed.

Lemma hundredths_nonneg (x : dyadic) : 0 ≤ dscale x → 0 ≤ hundredths x.
Proof.
  intros Hs. unfold hundredths.
  assert (0 < 2 ^ dscale x) by (apply Z.pow_pos_nonneg; lia).
  assert (0 ≤ 100 * Z.abs (dnum x) / 2 ^ dscale x) by (apply Z.div_pos; lia).
  destruct (_ || _); lia.
Qed.

Lemma string_app_assoc (a b c : string) : (a +:+ b) +:+ c = a +:+ b +:+ c.
Proof.
  induction a as [| x a IH]; [reflexivity |].
  change (String x a +:+ b) with (String x (a +:+ b)).
  change (String x (a +:+ b) +:+ c) with (String x ((a +:+ b) +:+ c)).
  by rewrite IH.
Qed.

(** A number below ten prints as one decimal digit. *)
Lemma pretty_digit (d : Z) :
  0 ≤ d < 10 → ∃ c, pretty d = String c "" ∧ py_isdigit c = true.
Proof.
  intros Hd.
  assert (Hcases : d = 0 ∨ d = 1 ∨ d = 2 ∨ d = 3 ∨ d = 4 ∨ d = 5 ∨ d = 6 ∨ d = 7
                   ∨ d = 8 ∨ d = 9) by lia.
  repeat destruct Hcases as [-> | Hcases]; try subst d;
    eexists; (split; [vm_compute; reflexivity | reflexivity]).
Qed.

(** The text of a non-negative float: an integer part, a point and two
    digits. *)
Lemma format_2f_shape (m s : Z) :
  0 ≤ m → 0 ≤ s →
  ∃ n c1 c2,
    0 ≤ n ∧ py_isdigit c1 = true ∧ py_isdigit c2 = true ∧
    format_2f (Dyadic m s) = pretty n +:+ "." +:+ String c1 (String c2 "").
Proof.
  intros Hm Hs. unfold format_2f. cbn [dnum].
  pose proof (hundredths_nonneg (Dyadic m s) Hs) as Hh.
  set (h := hundredths (Dyadic m s)) in *.
  destruct (pretty_digit (h / 10 mod 10)) as (c1 & -> & Hc1);
    [apply Z.mod_pos_bound; lia |].
  destruct (pretty_digit (h mod 10)) as (c2 & -> & Hc2);
    [apply Z.mod_pos_bound; lia |].
  exists (h / 100), c1, c2.
  destruct (Z.ltb_spec m 0) as [? | _]; [lia |].
  repeat split; [apply Z.div_pos; lia | done | done].
Qed.

(** A float below the last unit's bound returns at one of the units. *)
Lemma get_size_loop_returns (units : list string) (unit : string) (m s : Z) :
  0 ≤ m → 0 ≤ s →
  m < 2 ^ (s + 10 * Z.of_nat (length (unit :: units))) →
  ∃ n c1 c2 u,
    0 ≤ n ∧ py_isdigit c1 = true ∧ py_isdigit c2 = true ∧ u ∈ unit :: units ∧
    get_size_loop (unit :: units) (PyFloat (Dyadic m s)) "B" =
    Ok (Some (pretty n +:+ "." +:+ String c1 (String c2 "") +:+ u +:+ "B")).
Proof.
  intros Hm. revert unit s.
  induction units as [| unit' units IH]; intros unit s Hs Hlt;
    rewrite get_size_loop_cons; cbn [lt_factor dnum dscale];
    change 1024 with (2 ^ 10); rewrite <- Z.pow_add_r by lia;
    destruct (Z.ltb_spec m (2 ^ (10 + s))) as [Hret | Hgo].
  - destruct (format_2f_shape m s Hm Hs) as (n & c1 & c2 & Hn & Hc1 & Hc2 & Hfmt).
    exists n, c1, c2, unit. repeat split; [done.. | by left |].
    cbn [fmt_2f mbind result_bind]. rewrite Hfmt.
    by rewrite !string_app_assoc.
  - exfalso. change (Z.of_nat (length [unit])) with 1 in Hlt.
    replace (s + 10 * 1) with (10 + s) in Hlt by lia. lia.
  - destruct (format_2f_shape m s Hm Hs) as (n & c1 & c2 & Hn & Hc1 & Hc2 & Hfmt).
    exists n, c1, c2, unit. repeat split; [done.. | by left |].
    cbn [fmt_2f mbind result_bind]. rewrite Hfmt.
    by rewrite !string_app_assoc.
  - cbn [div_factor mbind result_bind dnum dscale].
    destruct (IH unit' (s + 10)) as (n & c1 & c2 & u & Hn & Hc1 & Hc2 & Hu & Hrun);
      [lia | |].
    { rewrite length_cons, Nat2Z.inj_succ in Hlt.
      replace (s + 10 + 10 * Z.of_nat (length (unit' :: units)))
        with (s + 10 * Z.succ (Z.of_nat (length (unit' :: units)))) by lia.
      exact Hlt. }
    exists n, c1, c2, u. repeat split; [done.. | by right | exact Hrun].
Qed.

(** X1: every byte count from 0 to [2^60 - 65] is scaled to a text of the
    form number, point, two digits, unit, B.  (This is where claim C1
    holds; above it [get_size_beyond_units] applies, and between
    [2^60 - 64] and [2^60] the first division already rounds up to
    [2^60].) *)
Lemma get_size_formats_in_range (b : Z) :
  0 ≤ b < 2 ^ 60 - 64 →
  ∃ n c1 c2 unit,
    0 ≤ n ∧ py_isdigit c1 = true ∧ py_isdigit c2 = true ∧ unit ∈ size_units ∧
    get_size b =
    Ok (Some (pretty n +:+ "." +:+ String c1 (String c2 "") +:+ unit +:+ "B")).
Proof.
  intros Hb. unfold get_size, get_size_with, size_units.
  rewrite get_size_loop_cons. cbn [lt_factor].
  destruct (Z.ltb_spec b 1024) as [Hsmall | Hbig].
  - cbn [fmt_2f]. unfold float_of_int.
    rewrite (Z.abs_eq b), round53_small by lia.
    destruct (Z.leb_spec (2 ^ 1024) b) as [? | _]; [lia |].
    cbn [mbind result_bind].
    destruct (format_2f_shape (Z.sgn b * b) 0) as (n & c1 & c2 & Hn & Hc1 & Hc2 & Hfmt);
      [nia | lia |].
    exists n, c1, c2, "". repeat split; [done.. | by left |].
    rewrite Hfmt. by rewrite !string_app_assoc.
  - cbn [div_factor]. unfold int_truediv_factor.
    rewrite (Z.abs_eq b) by lia.
    pose proof (round53_below b Hb) as Hround.
    destruct (Z.leb_spec (2 ^ 1034) (round53 b)) as [? | _]; [lia |].
    cbn [mbind result_bind].
    rewrite (Z.sgn_pos b), Z.mul_1_l by lia.
    destruct (get_size_loop_returns ["M"; "G"; "T"; "P"] "K" (round53 b) 10)
      as (n & c1 & c2 & u & Hn & Hc1 & Hc2 & Hu & Hrun); [lia | lia | cbn; lia |].
    exists n, c1, c2, u. repeat split; [done.. | by right | exact Hrun].
Qed.

Lemma get_size_formats_in_range_top :
  get_size (2 ^ 60 - 65) = Ok (Some "1024.00PB") ∧ get_size (2 ^ 60 - 64) = Ok None.
Proof. split; vm_compute; reflexivity. Qed.
End get_size_range.

(** ** Running the monad *)

Lemma run_bind {A B} (m : M A) (k : A → M B) (st : state) :
  (m ≫= k) st =
  match m st with
  | (Ok a, st') => k a st'
  | (Raise e, st') => (Raise e, st')
  end.
Proof. reflexivity. Qed.

Lemma run_bind_ok {A B} (m : M A) (k : A → M B) (st st' : state) (a : A) :
  m st = (Ok a, st') → (m ≫= k) st = k a st'.
Proof. intros Hm. rewrite run_bind, Hm. reflexivity. Qed.

Lemma run_bind_raise {A B} (m : M A) (k : A → M B) (st st' : state) (e : exn) :
  m st = (Raise e, st') → (m ≫= k) st = (Raise e, st').
Proof. intros Hm. rewrite run_bind, Hm. reflexivity. Qed.

(** [grows] is a preorder, and every step other than the two above respects it. *)
Lemma grows_refl (st : state) : grows st st.
Proof. split; [exists [] | | exists []]; by rewrite ?app_nil_r. Qed.

Lemma grows_trans (st1 st2 st3 : state) :
  grows st1 st2 → grows st2 st3 → grows st1 st3.
Proof.
  intros [[r1 Hr1] Ho1 [o1 Hw1]] [[r2 Hr2] Ho2 [o2 Hw2]]. split.
  - exists (r1 ++ r2). by rewrite Hr2, Hr1, app_assoc.
  - congruence.
  - exists (o1 ++ o2). by rewrite Hw2, Hw1, app_assoc.
Qed.

Lemma extends_ret {A} (a : A) : extends (mret a : M A).
Proof. intros st. apply grows_refl. Qed.

Lemma extends_bind {A B} (m : M A) (k : A → M B) :
  extends m → (∀ a, extends (k a)) → extends (m ≫= k).
Proof.
  intros Hm Hk st. rewrite run_bind. specialize (Hm st).
  destruct (m st) as [[a | e] st']; simpl in *; [| exact Hm].
  eapply grows_trans; [exact Hm | apply Hk].
Qed.

Lemma extends_lift {A} (r : result A) : extends (lift r).
Proof. intros st. apply grows_refl. Qed.

Lemma extends_rep_append (e : entry) : extends (rep_append e).
Proof. intros st. split; simpl; [by eexists | done | exists []; by rewrite app_nil_r]. Qed.

Lemma extends_write (text : string) : extends (write text).
Proof. intros st. split; simpl; [exists []; by rewrite app_nil_r | done | by eexists]. Qed.

Lemma extends_print (s : string) : extends (print s).
Proof. apply extends_write. Qed.

Lemma extends_when (c : bool) (body : M unit) : extends body → extends (when c body).
Proof. destruct c; [done | intros _; apply extends_ret]. Qed.

Lemma extends_for_each {A} (l : list A) (body : A → M unit) :
  (∀ x, extends (body x)) → extends (for_each l body).
Proof.
  intros Hbody. induction l as [| x l IH]; [apply extends_ret |].
  apply extends_bind; [apply Hbody | intros _; exact IH].
Qed.

Lemma extends_call (r : result CompletedProcess) : extends (call r).
Proof.
  apply extends_bind; [apply extends_lift | intros c].
  apply extends_bind; [apply extends_write | intros _; apply extends_ret].
Qed.

Lemma extends_size_value (bytes : Z) : extends (size_value bytes).
Proof. apply extends_bind; [apply extends_lift | intros r; apply extends_ret]. Qed.

Create HintDb extends_db.
#[local] Hint Resolve extends_ret extends_lift extends_rep_append extends_write
  extends_print extends_when extends_for_each extends_call extends_size_value
  : extends_db.

(** Walks through a block of the model: one rule per construct. *)
Ltac extends_step :=
  lazymatch goal with
  | |- extends (_ ≫= _) => apply extends_bind; [| intros ?]
  | |- extends (if ?c then _ else _) => destruct c
  | |- extends (match ?x with _ => _ end) => destruct x
  | |- extends (for_each _ _) => apply extends_for_each; intros ?
  | |- extends (when _ _) => apply extends_when
  | |- _ => solve [eauto with extends_db]
  end.

(** ** The sections of [show_env] only append *)

Lemma extends_query_gpu_memory (w : world) : extends (query_gpu_memory w).
Proof. unfold query_gpu_memory. repeat extends_step. Qed.

Lemma extends_cpu_name (w : world) : extends (cpu_name w).
Proof. unfold cpu_name. repeat extends_step. Qed.

Lemma extends_hardware_section (w : world) : extends (hardware_section w).
Proof.
  unfold hardware_section.
  pose proof (extends_query_gpu_memory w).
  pose proof (extends_cpu_name w).
  repeat extends_step.
Qed.

Lemma extends_environment_section (w : world) : extends (environment_section w).
Proof. unfold environment_section, module_truth. repeat extends_step. Qed.

(** The software section never raises and writes nothing; it leaves the
    header and the two unconditional versions at the front of [rep]. *)
Lemma software_section_run (w : world) (st : state) :
  ∃ suffix,
    software_section w st =
    (Ok (),
     State ([("=== Software ===", VNone);
             ("python", VStr (python_version (platform w)));
             ("torch", VStr (torch_version (torch w)))] ++ suffix)
       [] (out st)).
Proof.
  unfold software_section, when.
  destruct (have_nvidia_smi w), (findall_driver_version (smi w)),
    (cuda_is_available (torch w)); eexists; reflexivity.
Qed.

(** The same holds when the whole report has been built, or when the
    building stopped at an exception. *)
Lemma build_report_rep (w : world) (st : state) :
  ∃ suffix,
    rep (build_report w st).2 =
    [("=== Software ===", VNone);
     ("python", VStr (python_version (platform w)));
     ("torch", VStr (torch_version (torch w)))] ++ suffix.
Proof.
  destruct (software_section_run w st) as [s1 Hsw].
  unfold build_report. rewrite (run_bind_ok _ _ _ _ _ Hsw).
  set (st1 := State _ _ _).
  assert (Hrest : extends (torch_gpu_cnt ← hardware_section w;
                           environment_section w ;; mret torch_gpu_cnt)).
  { pose proof (extends_hardware_section w).
    pose proof (extends_environment_section w).
    repeat extends_step. }
  destruct (Hrest st1) as [[s2 Hrep] _ _].
  exists (s1 ++ s2). rewrite Hrep. unfold st1. simpl.
  by rewrite ?app_assoc, ?app_comm_cons.
Qed.

(** No step of the building names an optional module: the branch that would
    is guarded by the truth value of a module object. *)
Lemma build_report_opt_mods (w : world) (st : state) :
  opt_mods (build_report w st).2 = [].
Proof.
  destruct (software_section_run w st) as [s1 Hsw].
  unfold build_report. rewrite (run_bind_ok _ _ _ _ _ Hsw).
  set (st1 := State _ _ _).
  assert (Hrest : extends (torch_gpu_cnt ← hardware_section w;
                           environment_section w ;; mret torch_gpu_cnt)).
  { pose proof (extends_hardware_section w).
    pose proof (extends_environment_section w).
    repeat extends_step. }
  destruct (Hrest st1) as [_ Hopt _]. exact Hopt.
Qed.

Lemma keylen_of_build_report (w : world) (st : state) :
  ∃ keylen, keylen_of (rep (build_report w st).2) = Ok keylen.
Proof.
  destruct (build_report_rep w st) as [suffix ->].
  unfold keylen_of. simpl. eexists. reflexivity.
Qed.

(** ** What the rendering writes *)

Lemma for_each_entries_run (keylen : nat) (l : list entry) (st : state) :
  for_each l (λ e, let '(a, b) := entry_line keylen e in print2 a b) st =
  (Ok (), State (rep st) (opt_mods st) (out st ++ map (entry_text keylen) l)).
Proof.
  revert st. induction l as [| e l IH]; intros st.
  - simpl. rewrite app_nil_r. by destruct st.
  - cbn [for_each]. rewrite run_bind.
    unfold entry_line at 1. cbn [print2 print write].
    rewrite IH. cbn [rep opt_mods out map].
    by rewrite <- app_assoc.
Qed.

Lemma gpu_trailer_run (w : world) (show_nvidia_smi : bool) (torch_gpu_cnt : nat)
    (st : state) :
  gpu_trailer w show_nvidia_smi torch_gpu_cnt st =
  (Ok (), State (rep st) (opt_mods st)
            (out st ++ trailer_text w show_nvidia_smi torch_gpu_cnt)).
Proof.
  unfold gpu_trailer, trailer_text, when.
  destruct (have_nvidia_smi w), show_nvidia_smi, (negb (torch_gpu_cnt =? 0));
    destruct st; cbn; by rewrite ?app_nil_r.
Qed.

(** Once the width is known the rendering cannot fail, and it changes
    neither list. *)
Lemma render_run (w : world) (show_nvidia_smi : bool) (torch_gpu_cnt keylen : nat)
    (st : state) :
  keylen_of (rep st) = Ok keylen →
  render w show_nvidia_smi torch_gpu_cnt st =
  (Ok (), State (rep st) (opt_mods st)
            (out st ++ rendered w show_nvidia_smi torch_gpu_cnt keylen
                         (rep st) (opt_mods st))).
Proof.
  intros Hkey. unfold render, rendered.
  rewrite run_bind. cbn [print write].
  rewrite run_bind. cbn [get_rep rep opt_mods out].
  rewrite run_bind. unfold lift at 1. rewrite Hkey.
  rewrite run_bind, for_each_entries_run. cbn [rep opt_mods out].
  rewrite run_bind, gpu_trailer_run. cbn [rep opt_mods out].
  rewrite run_bind. cbn [print write rep opt_mods out].
  rewrite run_bind. cbn [print write rep opt_mods out].
  rewrite run_bind. cbn [get_opt_mods rep opt_mods out].
  unfold opt_mods_text, when.
  destruct (opt_mods st) as [| m ms]; cbn [bool_decide negb].
  - cbn. rewrite <- !app_assoc. reflexivity.
  - rewrite bool_decide_eq_false_2 by done. cbn [negb].
    rewrite run_bind. cbn [print write rep opt_mods out].
    rewrite run_bind. cbn [print write rep opt_mods out].
    unfold print, write. cbn [rep opt_mods out].
    rewrite <- !app_assoc. reflexivity.
Qed.

(** ** The width of the label column *)

Lemma length_string_app (a b : string) :
  String.length (a +:+ b) = String.length a + String.length b.
Proof.
  induction a as [| c a IH]; [reflexivity |].
  change (String c a +:+ b) with (String c (a +:+ b)).
  simpl. by rewrite IH.
Qed.

Lemma length_string_of_list_ascii (l : list ascii) :
  String.length (string_of_list_ascii l) = length l.
Proof. induction l as [| c l IH]; simpl; [done | by rewrite IH]. Qed.

Lemma length_ljust (s : string) (width : nat) :
  String.length (ljust s width) = String.length s `max` width.
Proof.
  unfold ljust.
  rewrite length_string_app, length_string_of_list_ascii, length_replicate. lia.
Qed.

Lemma foldl_max_spec (l : list nat) (x : nat) :
  (x ≤ foldl Nat.max x l ∧ ∀ y, y ∈ l → y ≤ foldl Nat.max x l) ∧
  (foldl Nat.max x l = x ∨ foldl Nat.max x l ∈ l).
Proof.
  revert x. induction l as [| z l IH]; intros x; simpl.
  - split; [split; [done | by intros y ?%elem_of_nil] | by left].
  - destruct (IH (x `max` z)) as [[Hx Hl] Hin]. split; [split |].
    + lia.
    + intros y [-> | Hy]%elem_of_cons; [lia | by apply Hl].
    + destruct Hin as [-> | Hin]; [| right; by right].
      destruct (Nat.max_spec x z) as [[_ ->] | [_ ->]]; [right; by left | by left].
Qed.

(** [max] returns an element of the list that bounds all of them. *)
Lemma py_max_spec (l : list nat) (k : nat) :
  py_max l = Ok k → k ∈ l ∧ ∀ y, y ∈ l → y ≤ k.
Proof.
  destruct l as [| x l]; [done |]. intros [= <-].
  destruct (foldl_max_spec l x) as [[Hx Hl] Hin]. split.
  - destruct Hin as [-> | Hin]; [by left | by right].
  - intros y [-> | Hy]%elem_of_cons; [exact Hx | by apply Hl].
Qed.

Lemma elem_of_valued_lengths (rep : list entry) (n : nat) :
  n ∈ List.map (λ e : entry, String.length e.1)
        (List.filter (λ e : entry, is_not_None e.2) rep) ↔
  ∃ e, e ∈ rep ∧ is_not_None e.2 = true ∧ String.length e.1 = n.
Proof.
  rewrite list_elem_of_In, in_map_iff. split.
  - intros (e & <- & [Hin Hv]%filter_In). exists e.
    by rewrite list_elem_of_In.
  - intros (e & Hin & Hv & <-). exists e. split; [done |].
    apply filter_In. by rewrite <- list_elem_of_In.
Qed.

(** An entry without a value does not take part in the width. *)
Lemma keylen_of_header (rep1 rep2 : list entry) (label : string) :
  keylen_of (rep1 ++ (label, VNone) :: rep2) = keylen_of (rep1 ++ rep2).
Proof. unfold keylen_of. by rewrite !List.filter_app. Qed.

Lemma entry_text_aligned (keylen : nat) (e : entry) :
  entry_text keylen e = aligned_text keylen e.
Proof.
  destruct e as [label [| s | n | repr]];
    unfold entry_text, entry_line, aligned_text, ljust, spaces; cbn [fst snd is_not_None str];
    by rewrite ?string_app_assoc.
Qed.

Lemma length_spaces (n : nat) : String.length (spaces n) = n.
Proof. unfold spaces. by rewrite length_string_of_list_ascii, length_replicate. Qed.

(** C7: the width used for the label column is the greatest length of a
    label among the entries that have a value: no such label is longer, one
    of them is that long, and an entry without a value does not count, even
    when its label is longer.  The rendering writes, for each entry in
    order, the label followed by spaces up to that width, so that the label
    of every entry with a value fills exactly that width, then a space, and
    for an entry with a value the colon and the value. *)
Theorem keylen_is_widest_valued_label (entries : list entry) (keylen : nat) :
  keylen_of entries = Ok keylen →
  (∀ e, e ∈ entries → e.2 ≠ VNone → String.length e.1 ≤ keylen) ∧
  (∃ e, e ∈ entries ∧ e.2 ≠ VNone ∧ String.length e.1 = keylen) ∧
  (∀ rep1 rep2 label,
     entries = rep1 ++ (label, VNone) :: rep2 → keylen_of (rep1 ++ rep2) = Ok keylen) ∧
  (∀ e, e ∈ entries → e.2 ≠ VNone →
        String.length (e.1 +:+ spaces (keylen - String.length e.1)) = keylen) ∧
  (∀ w show_nvidia_smi torch_gpu_cnt st,
     entries = rep st →
     ∃ after,
       out (render w show_nvidia_smi torch_gpu_cnt st).2 =
       out st ++ [opening_fence +:+ nl] ++ map (aligned_text keylen) entries ++ after).
Proof.
  intros Hkey. pose proof Hkey as [Hin Hmax]%py_max_spec.
  assert (Hvalued : ∀ v, v ≠ VNone ↔ is_not_None v = true) by (by intros []).
  assert (Hle : ∀ e, e ∈ entries → e.2 ≠ VNone → String.length e.1 ≤ keylen).
  { intros e He Hv. apply Hmax, elem_of_valued_lengths. exists e. by rewrite <- Hvalued. }
  split; [exact Hle | split; [| split; [| split]]].
  - apply elem_of_valued_lengths in Hin as (e & He & Hv & Hlen).
    exists e. by rewrite Hvalued.
  - intros rep1 rep2 label ->. by rewrite <- keylen_of_header with (label := label).
  - intros e He Hv. specialize (Hle e He Hv).
    rewrite length_string_app, length_spaces. lia.
  - intros w show_nvidia_smi torch_gpu_cnt st ->.
    rewrite (render_run _ _ _ keylen) by exact Hkey.
    cbn [snd out]. unfold rendered.
    rewrite (map_ext _ _ (entry_text_aligned keylen)).
    eexists. reflexivity.
Qed.

Lemma keylen_is_widest_valued_label_witness :
  let entries := [("CPU", VStr "x");
                  ("=== A header wider than every label ===", VNone);
                  ("TotalMemoryOfSystem", VStr "y");
                  ("Total cores:", VInt 4)] in
  (∀ e, e ∈ entries → e.2 ≠ VNone → String.length e.1 ≤ 19) ∧
  (∃ e, e ∈ entries ∧ e.2 ≠ VNone ∧ String.length e.1 = 19) ∧
  (∀ rep1 rep2 label,
     entries = rep1 ++ (label, VNone) :: rep2 → keylen_of (rep1 ++ rep2) = Ok 19) ∧
  (∀ e, e ∈ entries → e.2 ≠ VNone →
        String.length (e.1 +:+ spaces (19 - String.length e.1)) = 19) ∧
  (∀ w show_nvidia_smi torch_gpu_cnt st,
     entries = rep st →
     ∃ after,
       out (render w show_nvidia_smi torch_gpu_cnt st).2 =
       out st ++ [opening_fence +:+ nl]
         ++ ["CPU                 : x" +:+ nl;
             "=== A header wider than every label === " +:+ nl;
             "TotalMemoryOfSystem : y" +:+ nl;
             "Total cores:        : 4" +:+ nl]
         ++ after).
Proof.
  apply (keylen_is_widest_valued_label
           [("CPU", VStr "x");
            ("=== A header wider than every label ===", VNone);
            ("TotalMemoryOfSystem", VStr "y");
            ("Total cores:", VInt 4)] 19).
  reflexivity.
Defined.

(** ** The whole of [show_env] *)

(** When the building of the report returns, so does [show_env], and this
    is what it has written. *)
Lemma show_env_run (w : world) (show_nvidia_smi : bool) (st st1 : state)
    (torch_gpu_cnt : nat) :
  build_report w st = (Ok torch_gpu_cnt, st1) →
  ∃ keylen,
    keylen_of (rep st1) = Ok keylen ∧
    show_env w show_nvidia_smi st =
    (Ok (), State (rep st1) (opt_mods st1)
              (out st1 ++ rendered w show_nvidia_smi torch_gpu_cnt keylen
                            (rep st1) (opt_mods st1))).
Proof.
  intros Hbuild.
  destruct (keylen_of_build_report w st) as [keylen Hkey].
  rewrite Hbuild in Hkey. cbn [snd] in Hkey.
  exists keylen. split; [exact Hkey |].
  unfold show_env. rewrite (run_bind_ok _ _ _ _ _ Hbuild).
  by apply render_run.
Qed.

(** C10: whatever the collaborators answer, the report that reaches the
    rendering holds the entries of the interpreter version and of the
    framework version, which have a value; so the list of which the width is
    the maximum is not empty, the width is computed, and the rendering
    completes whenever the building of the report did. *)
Theorem rendered_report_has_valued_entry (w : world) (show_nvidia_smi : bool)
    (st : state) :
  let st1 := (build_report w st).2 in
  ("python", VStr (python_version (platform w))) ∈ rep st1 ∧
  ("torch", VStr (torch_version (torch w))) ∈ rep st1 ∧
  (∃ e, e ∈ rep st1 ∧ is_not_None e.2 = true) ∧
  (∃ keylen, keylen_of (rep st1) = Ok keylen) ∧
  (∀ torch_gpu_cnt,
     (build_report w st).1 = Ok torch_gpu_cnt →
     (show_env w show_nvidia_smi st).1 = Ok ()).
Proof.
  intros st1. unfold st1.
  destruct (build_report_rep w st) as [suffix Hrep].
  repeat split.
  - rewrite Hrep. set_solver.
  - rewrite Hrep. set_solver.
  - exists ("python", VStr (python_version (platform w))).
    rewrite Hrep. split; [set_solver | reflexivity].
  - apply keylen_of_build_report.
  - intros torch_gpu_cnt Hok.
    destruct (build_report w st) as [r st'] eqn:Hbuild. cbn [fst] in Hok. subst r.
    destruct (show_env_run w show_nvidia_smi _ _ _ Hbuild) as (keylen & _ & ->).
    reflexivity.
Qed.

Lemma rendered_report_has_valued_entry_witness :
  (show_env linux_cpu_host false initial).1 = Ok ().
Proof.
  apply (rendered_report_has_valued_entry linux_cpu_host false initial) with (torch_gpu_cnt := 0).
  vm_compute. reflexivity.
Defined.

(** C6, as stated, fails: on a machine without nvidia-smi the fallback line
    is written before the closing fence, and on a machine with it the raw
    output is. *)
Lemma trailer_precedes_fence :
  ¬ trailer_follows_fence linux_cpu_host false ∧
  ¬ trailer_follows_fence (linux_gpu_host ("8192" +:+ nl +:+ "16384" +:+ nl)) true.
Proof.
  split; intros Hclaim.
  - specialize (Hclaim (show_env linux_cpu_host false initial).2
                  ("no supported gpus found on this system" +:+ nl)).
    assert (Hlt : written_before (closing_fence +:+ nl)
                    ("no supported gpus found on this system" +:+ nl)
                    (out (show_env linux_cpu_host false initial).2) = false)
      by (vm_compute; reflexivity).
    rewrite Hclaim in Hlt; [discriminate | vm_compute; reflexivity |].
    vm_compute. by left.
  - set (w := linux_gpu_host ("8192" +:+ nl +:+ "16384" +:+ nl)) in *.
    specialize (Hclaim (show_env w true initial).2 ((nl +:+ smi_banner) +:+ nl)).
    assert (Hlt : written_before (closing_fence +:+ nl) ((nl +:+ smi_banner) +:+ nl)
                    (out (show_env w true initial).2) = false)
      by (vm_compute; reflexivity).
    rewrite Hclaim in Hlt; [discriminate | vm_compute; reflexivity |].
    vm_compute. by left.
Qed.

(** C6, amended: [show_env] writes the opening fence, one line per entry,
    then the raw output of nvidia-smi (tool available and flag set) or the
    fallback line (tool unavailable), then the closing fence, then the usage
    note, and last the lines about optional modules. *)
Theorem show_env_output_order (w : world) (show_nvidia_smi : bool) (st st1 : state)
    (torch_gpu_cnt : nat) :
  build_report w st = (Ok torch_gpu_cnt, st1) →
  ∃ keylen,
    keylen_of (rep st1) = Ok keylen ∧
    show_env w show_nvidia_smi st =
    (Ok (),
     State (rep st1) (opt_mods st1)
       (out st1
          ++ [opening_fence +:+ nl]
          ++ map (entry_text keylen) (rep st1)
          ++ trailer_text w show_nvidia_smi torch_gpu_cnt
          ++ [closing_fence +:+ nl; usage_note +:+ nl]
          ++ opt_mods_text (opt_mods st1))).
Proof. apply show_env_run. Qed.

Lemma show_env_output_order_witness :
  let st1 := (build_report linux_cpu_host initial).2 in
  ∃ keylen,
    keylen_of (rep st1) = Ok keylen ∧
    show_env linux_cpu_host false initial =
    (Ok (),
     State (rep st1) (opt_mods st1)
       (out st1
          ++ [opening_fence +:+ nl]
          ++ map (entry_text keylen) (rep st1)
          ++ trailer_text linux_cpu_host false 0
          ++ [closing_fence +:+ nl; usage_note +:+ nl]
          ++ opt_mods_text (opt_mods st1))).
Proof.
  apply (show_env_output_order linux_cpu_host false initial).
  vm_compute. reflexivity.
Defined.

(** ** Where [show_env] stops at an exception *)

Lemma py_int_raises_ValueError (x : string) (e : exn) :
  py_int x = Raise e → ∃ msg, e = ValueError msg.
Proof.
  unfold py_int.
  destruct (match int_strip x with "" => _ | _ => _ end) as [negative digits].
  destruct (int_digits digits 0 false); [| intros [= <-]; by eexists].
  destruct (int_max_str_digits <? count_digits digits); [| done].
  intros [= <-]. by eexists.
Qed.

(** The list comprehension raises as soon as one line is not an integer. *)
Lemma mapM_py_int_raise (lines : list string) (line : string) (e : exn) :
  line ∈ lines → py_int line = Raise e →
  ∃ msg, mapM py_int lines = Raise (ValueError msg).
Proof.
  intros Hin Hline. induction lines as [| x lines IH]; [by apply elem_of_nil in Hin |].
  cbn [mapM]. destruct (py_int x) as [n | e'] eqn:Hx.
  - apply elem_of_cons in Hin as [-> | Hin]; [congruence |].
    destruct (IH Hin) as [msg Hmsg]. exists msg.
    cbn [mbind result_bind]. fold (mapM py_int lines). by rewrite Hmsg.
  - destruct (py_int_raises_ValueError _ _ Hx) as [msg ->]. by exists msg.
Qed.

(** C3: with nvidia-smi available and its memory query answered, one line
    of the answer that [int] rejects makes the ValueError leave [show_env]:
    the list of device memories is not left empty and nothing of the report
    is written. *)
Theorem unparsable_memory_answer_aborts (w : world) (show_nvidia_smi : bool)
    (st : state) (result : CompletedProcess) (line : string) (e : exn) :
  have_nvidia_smi w = true →
  nvidia_smi_query_gpu (subprocess w) = Ok result →
  succeeded result = true →
  line ∈ split LF (strip (stdout result)) →
  py_int line = Raise e →
  ∃ msg st',
    show_env w show_nvidia_smi st = (Raise (ValueError msg), st') ∧
    out st' = out st.
Proof.
  intros Hhave Hquery Hsucc Hin Hline.
  destruct (mapM_py_int_raise _ _ _ Hin Hline) as [msg Hmsg].
  destruct (software_section_run w st) as [suffix Hsw].
  exists msg. eexists. split.
  - unfold show_env. erewrite run_bind_raise; [reflexivity |].
    unfold build_report. rewrite (run_bind_ok _ _ _ _ _ Hsw).
    erewrite run_bind_raise; [reflexivity |].
    unfold hardware_section. rewrite run_bind. cbn [rep_append rep opt_mods out].
    erewrite run_bind_raise; [reflexivity |].
    unfold query_gpu_memory. rewrite Hhave, Hquery, Hsucc.
    rewrite run_bind. unfold lift. rewrite Hmsg. reflexivity.
  - reflexivity.
Qed.

Lemma unparsable_memory_answer_aborts_witness :
  ∃ msg st',
    show_env (linux_gpu_host ("[N/A]" +:+ nl)) false initial
    = (Raise (ValueError msg), st') ∧
    out st' = out initial.
Proof.
  apply (unparsable_memory_answer_aborts (linux_gpu_host ("[N/A]" +:+ nl)) false
           initial (Completed 0 ("[N/A]" +:+ nl)) "[N/A]"
           (ValueError "invalid literal for int() with base 10: '[N/A]'")).
  - vm_compute. reflexivity.
  - vm_compute. reflexivity.
  - vm_compute. reflexivity.
  - vm_compute. by left.
  - vm_compute. reflexivity.
Defined.

(** C4: on Linux without the module [distro], [import_module] raises
    before the test that guards the fallback: no [distro] entry is appended,
    [opt_mods] stays empty, and [show_env] ends with an exception instead
    of printing the suggestion. *)
Theorem missing_distro_aborts (w : world) (show_nvidia_smi : bool) (st : state) :
  system (platform w) = "Linux" →
  distro w = None →
  (∀ st0,
     environment_section w st0 =
     (Raise (ModuleNotFoundError "distro"),
      State (rep st0 ++ [(nl +:+ "=== Environment ===", VNone);
                         ("platform", VStr (platform_platform (platform w)));
                         ("Node Name", VStr (node (platform w)))])
        (opt_mods st0) (out st0))) ∧
  ∃ e st', show_env w show_nvidia_smi st = (Raise e, st') ∧ opt_mods st' = [].
Proof.
  intros Hlinux Hdistro.
  assert (Henv : ∀ st0,
     environment_section w st0 =
     (Raise (ModuleNotFoundError "distro"),
      State (rep st0 ++ [(nl +:+ "=== Environment ===", VNone);
                         ("platform", VStr (platform_platform (platform w)));
                         ("Node Name", VStr (node (platform w)))])
        (opt_mods st0) (out st0))).
  { intros st0. unfold environment_section, import_module_distro.
    rewrite Hlinux, Hdistro, bool_decide_eq_true_2 by done.
    do 3 (rewrite run_bind; cbn [rep_append rep opt_mods out]).
    rewrite run_bind. unfold when. rewrite run_bind. unfold lift.
    by rewrite <- !app_assoc. }
  split; [exact Henv |].
  pose proof (build_report_opt_mods w st) as Hopt.
  destruct (build_report w st) as [[cnt | e] st1] eqn:Hbuild.
  - exfalso. revert Hbuild. unfold build_report.
    destruct (software_section_run w st) as [suffix Hsw].
    rewrite (run_bind_ok _ _ _ _ _ Hsw), run_bind.
    destruct (hardware_section w _) as [[n | e] st2]; [| done].
    rewrite run_bind, Henv. done.
  - exists e, st1. split; [| exact Hopt].
    unfold show_env. by rewrite (run_bind_raise _ _ _ _ _ Hbuild).
Qed.

Lemma missing_distro_aborts_witness :
  ∃ e st', show_env linux_no_distro_host false initial = (Raise e, st') ∧
           opt_mods st' = [].
Proof.
  apply (missing_distro_aborts linux_no_distro_host false initial).
  - vm_compute. reflexivity.
  - vm_compute. reflexivity.
Defined.

Lemma startswith_linux_not_darwin (s : string) :
  startswith "linux" s = true → startswith "darwin" s = false.
Proof.
  destruct s as [| c s]; [done |]. cbn [startswith].
  destruct (bool_decide_reflect ("l"%char = c)) as [<- | _]; [| done].
  intros _. by rewrite bool_decide_eq_false_2.
Qed.

Lemma startswith_win32_not_others (s : string) :
  startswith "win32" s = true →
  startswith "darwin" s = false ∧ startswith "linux" s = false.
Proof.
  destruct s as [| c s]; [done |]. cbn [startswith].
  destruct (bool_decide_reflect ("w"%char = c)) as [<- | _]; [| done].
  intros _. by rewrite !bool_decide_eq_false_2.
Qed.

(** C5: on Linux and on Windows the value of the CPU Name entry is the
    return code of the tool, an integer, and the text of the tool goes to
    the standard output instead of the report.  (On macOS the value is the
    captured text.) *)
Theorem cpu_name_is_return_code (w : world) (st : state) (c : CompletedProcess) :
  (startswith "linux" (sys_platform w) = true ∧ lscpu (subprocess w) = Ok c) ∨
  (startswith "win32" (sys_platform w) = true ∧
   wmic_cpu_get_name (subprocess w) = Ok c) →
  cpu_name w st =
  (Ok (), State (rep st ++ [("CPU Name", VInt (returncode c))]) (opt_mods st)
            (out st ++ [stdout c])).
Proof.
  unfold cpu_name. intros [[Hplat Htool] | [Hplat Htool]].
  - rewrite (startswith_linux_not_darwin _ Hplat), Hplat, Htool. reflexivity.
  - destruct (startswith_win32_not_others _ Hplat) as [-> ->].
    rewrite Hplat, Htool. reflexivity.
Qed.

Lemma cpu_name_is_return_code_witness :
  cpu_name linux_cpu_host initial =
  (Ok (), State [("CPU Name", VInt 0)] []
            ["Model name: Intel(R) Xeon(R)" +:+ nl]) ∧
  ("CPU Name", VInt 0) ∈ rep (show_env linux_cpu_host false initial).2.
Proof.
  split.
  - apply (cpu_name_is_return_code linux_cpu_host initial
             (Completed 0 ("Model name: Intel(R) Xeon(R)" +:+ nl))).
    left. split; vm_compute; reflexivity.
  - vm_compute. do 10 right. by left.
Defined.

(** On macOS the sibling branch captures the text of the tool. *)
Lemma cpu_name_darwin (w : world) (st : state) (c : CompletedProcess) :
  startswith "darwin" (sys_platform w) = true →
  sysctl_brand_string (subprocess w) = Ok c →
  returncode c = 0%Z →
  cpu_name w st =
  (Ok (), State (rep st ++ [("CPU Name", VStr (stdout c))]) (opt_mods st) (out st)).
Proof.
  unfold cpu_name, check_output. intros -> -> Hcode.
  cbn [mbind result_bind]. rewrite Hcode. reflexivity.
Qed.

(** C2: four configurations of the collaborators in which [show_env] ends
    with an exception and no report: a memory answer that is not an integer,
    fewer memory lines than devices, a missing [distro] module on Linux,
    and a missing [lscpu]. *)
Theorem show_env_can_raise :
  (show_env (linux_gpu_host ("[N/A]" +:+ nl)) false initial).1
  = Raise (ValueError "invalid literal for int() with base 10: '[N/A]'") ∧
  (show_env (linux_gpu_host ("8192" +:+ nl)) false initial).1
  = Raise (IndexError "list index out of range") ∧
  (show_env linux_no_distro_host false initial).1
  = Raise (ModuleNotFoundError "distro") ∧
  (show_env linux_no_lscpu_host false initial).1
  = Raise (FileNotFoundError "lscpu") ∧
  out (show_env (linux_gpu_host ("[N/A]" +:+ nl)) false initial).2 = [].
Proof. repeat split; vm_compute; reflexivity. Qed.

(** * Further properties of [get_size] *)

Section get_size_more.
Local Open Scope Z_scope.

(** Rounding to 53 bits never passes the next power of two. *)
Lemma round53_upper (n : Z) : 0 < n → round53 n ≤ 2 ^ (Z.log2 n + 1).
Proof.
  intros Hn. unfold round53.
  pose proof (Z.log2_spec n Hn) as [_ Hhi].
  pose proof (Z.log2_nonneg n) as Hlog.
  replace (Z.succ (Z.log2 n)) with (Z.log2 n + 1) in Hhi by lia.
  destruct (Z.leb_spec (Z.log2 n + 1) 53) as [_ | Hk]; [lia |].
  set (sh := Z.log2 n + 1 - 53).
  assert (Hsh : 0 < sh) by (unfold sh; lia).
  rewrite Z.shiftl_mul_pow2, Z.shiftr_div_pow2 by lia.
  assert (Hpow : 2 ^ (Z.log2 n + 1) = 2 ^ 53 * 2 ^ sh).
  { rewrite <- Z.pow_add_r by lia. f_equal. unfold sh. lia. }
  assert (Hd : 0 < 2 ^ sh) by (apply Z.pow_pos_nonneg; lia).
  assert (Hq : n / 2 ^ sh < 2 ^ 53).
  { apply Z.div_lt_upper_bound; [exact Hd |]. lia. }
  rewrite Hpow. apply Z.mul_le_mono_nonneg_r; [lia |].
  destruct (_ || _); lia.
Qed.

(** The 64 integers just below [2^60] already round up to it. *)
Lemma round53_top (n : Z) : 2 ^ 60 - 64 ≤ n < 2 ^ 60 → round53 n = 2 ^ 60.
Proof.
  intros [Hlo Hhi]. unfold round53.
  assert (Hlog : Z.log2 n = 59).
  { apply Z.log2_unique; [lia |]. change (Z.succ 59) with 60. lia. }
  rewrite Hlog. change (59 + 1 <=? 53) with false. cbv iota.
  change (59 + 1 - 53) with 7.
  rewrite Z.shiftl_mul_pow2, Z.shiftr_div_pow2, Z.land_ones, Z.shiftl_1_l by lia.
  change (2 ^ 7) with 128. change (2 ^ (7 - 1)) with 64.
  pose proof (Z.div_mod n 128 ltac:(lia)) as Hdm.
  pose proof (Z.mod_pos_bound n 128 ltac:(lia)) as Hr.
  assert (Hq : n / 128 = 2 ^ 53 - 1) by lia.
  rewrite Hq.
  assert (Hup : (64 <? n mod 128) || ((n mod 128 =? 64) && Z.odd (2 ^ 53 - 1)) = true).
  { destruct (Z.ltb_spec 64 (n mod 128)) as [_ | Hle]; [reflexivity |].
    assert (n mod 128 = 64) as -> by lia. reflexivity. }
  rewrite Hup. reflexivity.
Qed.

(** X5: from [2^60 - 64] bytes up to the range of a float, [get_size]
    returns [None]: the threshold lies 64 below [1024^6] because the first
    division rounds to 53 bits. *)
Theorem get_size_none_range (b : Z) :
  2 ^ 60 - 64 ≤ b < 2 ^ 1033 → get_size b = Ok None.
Proof.
  intros [Hlo Hhi].
  assert (Hpos : 0 < b) by lia.
  assert (Hround : 2 ^ 60 ≤ round53 b < 2 ^ 1034).
  { split.
    - destruct (Z_lt_le_dec b (2 ^ 60)) as [Hlt | Hge].
      + rewrite round53_top; lia.
      + by apply round53_large.
    - eapply Z.le_lt_trans; [apply round53_upper, Hpos |].
      assert (Z.log2 b < 1033) by (apply Z.log2_lt_pow2; lia).
      apply Z.pow_lt_mono_r; lia. }
  unfold get_size, get_size_with, size_units.
  rewrite get_size_loop_cons. cbn [lt_factor].
  destruct (Z.ltb_spec b 1024) as [? | _]; [lia |].
  cbn [div_factor]. unfold int_truediv_factor.
  rewrite (Z.abs_eq b) by lia.
  destruct (Z.leb_spec (2 ^ 1034) (round53 b)) as [? | _]; [lia |].
  cbn [mbind result_bind]. rewrite (Z.sgn_pos b Hpos), Z.mul_1_l.
  apply get_size_loop_exhausted; [lia | apply Hround].
Qed.

Lemma get_size_none_range_witness : get_size (2 ^ 60 - 64) = Ok None.
Proof. apply (get_size_none_range (2 ^ 60 - 64)). lia. Defined.
(** X6: an integer beyond the range of a float makes [get_size] raise
    OverflowError: in the first division for a positive one, in the
    formatting for a negative one. *)
Theorem get_size_overflow (b : Z) :
  2 ^ 1034 ≤ b ∨ b ≤ - 2 ^ 1024 →
  ∃ msg, get_size b = Raise (OverflowError msg).
Proof.
  unfold get_size, get_size_with, size_units.
  rewrite get_size_loop_cons. cbn [lt_factor].
  pose proof (Z.pow_pos_nonneg 2 1034) as H1034.
  pose proof (Z.pow_pos_nonneg 2 1024) as H1024.
  intros [Hb | Hb].
  - destruct (Z.ltb_spec b 1024) as [? | _]; [lia |].
    cbn [div_factor]. unfold int_truediv_factor. rewrite (Z.abs_eq b) by lia.
    assert (Hround : 2 ^ 1034 ≤ round53 b).
    { etrans; [| apply round53_lower; lia].
      apply Z.pow_le_mono_r; [lia |]. apply Z.log2_le_pow2; lia. }
    destruct (Z.leb_spec (2 ^ 1034) (round53 b)) as [_ | ?]; [| lia].
    by eexists.
  - destruct (Z.ltb_spec b 1024) as [_ | ?]; [| lia].
    cbn [fmt_2f]. unfold float_of_int. rewrite (Z.abs_neq b) by lia.
    assert (Hround : 2 ^ 1024 ≤ round53 (- b)).
    { etrans; [| apply round53_lower; lia].
      apply Z.pow_le_mono_r; [lia |]. apply Z.log2_le_pow2; lia. }
    destruct (Z.leb_spec (2 ^ 1024) (round53 (- b))) as [_ | ?]; [| lia].
    by eexists.
Qed.

Lemma get_size_overflow_witness :
  ∃ msg, get_size (2 ^ 1034) = Raise (OverflowError msg).
Proof. apply (get_size_overflow (2 ^ 1034)). left. lia. Defined.

Lemma hundredths_integer (n : Z) : 0 ≤ n → hundredths (Dyadic n 0) = 100 * n.
Proof.
  intros Hn. unfold hundredths. cbn [dnum dscale].
  change (2 ^ 0) with 1. rewrite Z.abs_eq, Z.div_1_r, Z.mod_1_r by lia.
  reflexivity.
Qed.

Lemma hundredths_opp (m s : Z) : hundredths (Dyadic (- m) s) = hundredths (Dyadic m s).
Proof. unfold hundredths. cbn [dnum dscale]. by rewrite Z.abs_opp. Qed.

Lemma integer_digits (n : Z) :
  0 ≤ n →
  (100 * n) / 100 = n ∧ (100 * n) / 10 mod 10 = 0 ∧ (100 * n) mod 10 = 0.
Proof.
  intros Hn. split; [| split].
  - rewrite Z.mul_comm. by apply Z.div_mul.
  - replace (100 * n) with (n * 10 * 10) by lia.
    rewrite Z.div_mul by lia. by apply Z.mod_mul.
  - replace (100 * n) with (n * 10 * 10) by lia. by apply Z.mod_mul.
Qed.

(** X2: a count below 1024 is not scaled: it is printed with two zero
    decimals and the bare suffix. *)
Theorem get_size_bytes (b : Z) :
  0 ≤ b < 1024 → get_size b = Ok (Some (pretty b +:+ ".00B")).
Proof.
  intros [H0 Hb]. unfold get_size, get_size_with, size_units.
  rewrite get_size_loop_cons. cbn [lt_factor].
  destruct (Z.ltb_spec b 1024) as [_ | ?]; [| lia].
  cbn [fmt_2f]. unfold float_of_int.
  rewrite (Z.abs_eq b), round53_small by lia.
  destruct (Z.leb_spec (2 ^ 1024) b) as [? | _]; [lia |].
  cbn [mbind result_bind]. unfold format_2f. cbn [dnum].
  assert (Hsgn : Z.sgn b * b = b) by nia. rewrite Hsgn.
  rewrite hundredths_integer by lia.
  destruct (integer_digits b H0) as (-> & -> & ->).
  destruct (Z.ltb_spec b 0) as [? | _]; [lia |].
  by rewrite !string_app_assoc.
Qed.

Lemma get_size_bytes_witness : get_size 1023 = Ok (Some "1023.00B").
Proof. apply (get_size_bytes 1023). lia. Defined.

(** X3: a negative count is never scaled, whatever its magnitude: the
    first comparison with 1024 already holds. *)
Theorem get_size_negative (b : Z) :
  - 2 ^ 53 < b < 0 → get_size b = Ok (Some ("-" +:+ pretty (- b) +:+ ".00B")).
Proof.
  intros [Hlo Hhi]. unfold get_size, get_size_with, size_units.
  rewrite get_size_loop_cons. cbn [lt_factor].
  destruct (Z.ltb_spec b 1024) as [_ | ?]; [| lia].
  cbn [fmt_2f]. unfold float_of_int.
  rewrite (Z.abs_neq b), round53_small by lia.
  destruct (Z.leb_spec (2 ^ 1024) (- b)) as [? | _]; [lia |].
  cbn [mbind result_bind]. unfold format_2f. cbn [dnum].
  rewrite (Z.sgn_neg b) by lia.
  replace (-1 * - b) with (- (- b)) by lia.
  rewrite hundredths_opp, hundredths_integer by lia.
  destruct (integer_digits (- b)) as (-> & -> & ->); [lia |].
  destruct (Z.ltb_spec (- - b) 0) as [_ | ?]; [| lia].
  by rewrite !string_app_assoc.
Qed.

Lemma get_size_negative_witness :
  get_size (-1253656) = Ok (Some "-1253656.00B").
Proof. apply (get_size_negative (-1253656)). lia. Defined.
(** The two decimals are the nearest hundredth of the exact value. *)
Lemma hundredths_error (m s : Z) :
  0 ≤ m → 0 ≤ s →
  Z.abs (2 * (hundredths (Dyadic m s) * 2 ^ s - 100 * m)) ≤ 2 ^ s.
Proof.
  intros Hm Hs. unfold hundredths. cbn [dnum dscale]. rewrite (Z.abs_eq m) by lia.
  assert (Hd : 0 < 2 ^ s) by (apply Z.pow_pos_nonneg; lia).
  pose proof (Z.div_mod (100 * m) (2 ^ s) ltac:(lia)) as Hdm.
  pose proof (Z.mod_pos_bound (100 * m) (2 ^ s) Hd) as Hr.
  set (d := 2 ^ s) in *. set (q := 100 * m / d) in *. set (r := (100 * m) mod d) in *.
  destruct (Z.ltb_spec d (2 * r)) as [Hup | Hdown]; cbn [orb]; [nia |].
  destruct (Z.eqb_spec (2 * r) d) as [Hhalf | Hne]; cbn [andb]; [| nia].
  destruct (Z.odd q); nia.
Qed.

Lemma hundredths_bound (m s : Z) :
  0 ≤ m → 0 ≤ s → m < 1024 * 2 ^ s → 0 ≤ hundredths (Dyadic m s) ≤ 102400.
Proof.
  intros Hm Hs Hlt. split; [by apply hundredths_nonneg |].
  unfold hundredths. cbn [dnum dscale]. rewrite (Z.abs_eq m) by lia.
  assert (Hd : 0 < 2 ^ s) by (apply Z.pow_pos_nonneg; lia).
  assert (Hq : 100 * m / 2 ^ s < 102400).
  { apply Z.div_lt_upper_bound; [exact Hd |]. nia. }
  destruct (_ || _); lia.
Qed.

(** The loop on a float returns at the unit whose range holds the value. *)
Lemma get_size_loop_float_unit (j : nat) (units : list string) (u suffix : string)
    (m s : Z) :
  0 ≤ s →
  units !! j = Some u →
  2 ^ (s + 10 * Z.of_nat j) ≤ m < 2 ^ (s + 10 * Z.of_nat j + 10) →
  get_size_loop units (PyFloat (Dyadic m s)) suffix =
  Ok (Some (format_2f (Dyadic m (s + 10 * Z.of_nat j)) +:+ u +:+ suffix)).
Proof.
  revert units s. induction j as [| j IH]; intros [| u' units] s Hs Hu Hm; try done.
  - cbn in Hu. injection Hu as ->.
    change (Z.of_nat 0) with 0 in *. rewrite Z.mul_0_r, Z.add_0_r in *.
    rewrite get_size_loop_cons. cbn [lt_factor dnum dscale].
    rewrite Z.pow_add_r in Hm by lia. change (2 ^ 10) with 1024 in Hm.
    destruct (Z.ltb_spec m (1024 * 2 ^ s)) as [_ | ?]; [| lia].
    reflexivity.
  - cbn in Hu. rewrite Nat2Z.inj_succ in *.
    rewrite get_size_loop_cons. cbn [lt_factor dnum dscale].
    assert (Hge : 1024 * 2 ^ s ≤ m).
    { etrans; [| apply Hm].
      replace (s + 10 * Z.succ (Z.of_nat j)) with (10 + s + 10 * Z.of_nat j) by lia.
      rewrite !Z.pow_add_r by lia. change (2 ^ 10) with 1024.
      assert (0 < 2 ^ s) by (apply Z.pow_pos_nonneg; lia).
      assert (0 < 2 ^ (10 * Z.of_nat j)) by (apply Z.pow_pos_nonneg; lia).
      nia. }
    destruct (Z.ltb_spec m (1024 * 2 ^ s)) as [? | _]; [lia |].
    cbn [div_factor mbind result_bind dnum dscale].
    replace (s + 10 * Z.succ (Z.of_nat j)) with (s + 10 + 10 * Z.of_nat j) in * by lia.
    by apply IH; [lia | |].
Qed.

(** X4: a count between [1024^k] and [1024^(k+1)] gets the [k]-th unit,
    and the number in front of it is the count divided by [1024^k], rounded
    to the nearest hundredth (for counts that a float holds exactly).  The
    number can reach 1024.00 by this rounding but never passes it. *)
Theorem get_size_unit (k : nat) (u : string) (b : Z) :
  size_units !! k = Some u →
  1024 ^ Z.of_nat k ≤ b < 1024 ^ (Z.of_nat k + 1) →
  b < 2 ^ 53 →
  ∃ h,
    get_size b =
    Ok (Some ((pretty (h / 100) +:+ "." +:+ pretty (h / 10 mod 10)
                 +:+ pretty (h mod 10)) +:+ u +:+ "B")) ∧
    0 ≤ h ≤ 102400 ∧
    Z.abs (2 * (h * 1024 ^ Z.of_nat k - 100 * b)) ≤ 1024 ^ Z.of_nat k.
Proof.
  intros Hu Hb H53.
  assert (Hpow : ∀ n : Z, 0 ≤ n → 1024 ^ n = 2 ^ (10 * n)).
  { intros n Hn. by rewrite Z.pow_mul_r by lia. }
  assert (Hpos : 0 < b).
  { pose proof (Z.pow_pos_nonneg 1024 (Z.of_nat k)). lia. }
  rewrite !Hpow in * by lia.
  exists (hundredths (Dyadic b (10 * Z.of_nat k))).
  split; [| split].
  - unfold get_size, get_size_with, size_units in *.
    destruct k as [| j].
    + change (10 * Z.of_nat 0) with 0 in *. change (2 ^ (10 * (0 + 1))) with 1024 in Hb.
      injection Hu as <-.
      rewrite get_size_loop_cons. cbn [lt_factor].
      destruct (Z.ltb_spec b 1024) as [_ | ?]; [| lia].
      cbn [fmt_2f]. unfold float_of_int.
      rewrite (Z.abs_eq b), round53_small by lia.
      destruct (Z.leb_spec (2 ^ 1024) b) as [? | _]; [lia |].
      cbn [mbind result_bind]. rewrite (Z.sgn_pos b Hpos), Z.mul_1_l.
      unfold format_2f. cbn [dnum].
      destruct (Z.ltb_spec b 0) as [? | _]; [lia |]. reflexivity.
    + rewrite get_size_loop_cons. cbn [lt_factor].
      rewrite Nat2Z.inj_succ in *.
      assert (Hge : 1024 ≤ b).
      { etrans; [| apply Hb]. change 1024 with (2 ^ 10).
        apply Z.pow_le_mono_r; lia. }
      destruct (Z.ltb_spec b 1024) as [? | _]; [lia |].
      cbn [div_factor]. unfold int_truediv_factor.
      rewrite (Z.abs_eq b), round53_small by lia.
      destruct (Z.leb_spec (2 ^ 1034) b) as [Hbig | _].
      { pose proof (Z.pow_lt_mono_r 2 53 1034). lia. }
      cbn [mbind result_bind]. rewrite (Z.sgn_pos b Hpos), Z.mul_1_l.
      cbn in Hu.
      rewrite (get_size_loop_float_unit j _ u) by
        (first [lia | exact Hu |
                replace (10 + 10 * Z.of_nat j) with (10 * Z.succ (Z.of_nat j)) by lia;
                replace (10 * Z.succ (Z.of_nat j) + 10)
                  with (10 * (Z.succ (Z.of_nat j) + 1)) by lia;
                exact Hb]).
      replace (10 + 10 * Z.of_nat j) with (10 * Z.succ (Z.of_nat j)) by lia.
      unfold format_2f. cbn [dnum].
      destruct (Z.ltb_spec b 0) as [? | _]; [lia |]. reflexivity.
  - apply hundredths_bound; [lia | lia |].
    replace (10 * (Z.of_nat k + 1)) with (10 + 10 * Z.of_nat k) in Hb by lia.
    rewrite Z.pow_add_r in Hb by lia. apply Hb.
  - apply hundredths_error; lia.
Qed.

Lemma get_size_unit_witness :
  ∃ h,
    get_size 1253656 =
    Ok (Some ((pretty (h / 100) +:+ "." +:+ pretty (h / 10 mod 10)
                 +:+ pretty (h mod 10)) +:+ "M" +:+ "B")) ∧
    0 ≤ h ≤ 102400 ∧
    Z.abs (2 * (h * 1024 ^ Z.of_nat 2 - 100 * 1253656)) ≤ 1024 ^ Z.of_nat 2.
Proof.
  apply (get_size_unit 2 "M" 1253656).
  - reflexivity.
  - cbn. lia.
  - lia.
Defined.
End get_size_more.

Lemma get_size_formats_in_range_witness :
  ∃ n c1 c2 unit,
    (0 ≤ n)%Z ∧ py_isdigit c1 = true ∧ py_isdigit c2 = true ∧ unit ∈ size_units ∧
    get_size 1253656678 =
    Ok (Some (pretty n +:+ "." +:+ String c1 (String c2 "") +:+ unit +:+ "B")).
Proof. apply (get_size_formats_in_range 1253656678). lia. Defined.

(** * Further properties of [get_env] *)

(** X7: [get_env] never returns the empty string, whatever the
    environment holds. *)
Theorem get_env_nonempty (environ : gmap string string) (name : string) :
  get_env environ name ≠ "".
Proof.
  unfold get_env. destruct (default "" (environ !! name)) as [| c s]; done.
Qed.

(** X8: the fallback text is not a reserved value: once a variable has
    been set to Unknown, or to the empty string, [get_env] answers as it
    does once the variable has been removed. *)
Theorem get_env_cannot_tell_unset (environ : gmap string string) (name : string) :
  get_env (<[name := "Unknown"]> environ) name = get_env (delete name environ) name ∧
  get_env (<[name := ""]> environ) name = get_env (delete name environ) name.
Proof.
  unfold get_env. split; by rewrite lookup_insert_eq, lookup_delete_eq.
Qed.

(** * Further properties of [show_env] *)

(** ** When a block returns *)


Lemma post_bind {A B} (m : M A) (k : A → M B) (st : state) (Q : B → state → Prop) :
  post m st (λ a st', post (k a) st' Q) → post (m ≫= k) st Q.
Proof.
  intros Hm b st2 Hrun. rewrite run_bind in Hrun.
  destruct (m st) as [[a | e] st1] eqn:Hmst; [| done].
  by apply (Hm a st1).
Qed.

Lemma post_ret {A} (a : A) (st : state) (Q : A → state → Prop) :
  Q a st → post (mret a : M A) st Q.
Proof. intros HQ a' st' [= <- <-]. exact HQ. Qed.

Lemma post_rep_append (e : entry) (st : state) (Q : unit → state → Prop) :
  Q () (State (rep st ++ [e]) (opt_mods st) (out st)) → post (rep_append e) st Q.
Proof. intros HQ a st' [= <- <-]. exact HQ. Qed.

(** A block that only appends establishes what every larger state has. *)
Lemma post_extends {A} (m : M A) (st : state) (Q : A → state → Prop) :
  extends m → (∀ a st', grows st st' → Q a st') → post m st Q.
Proof.
  intros Hm HQ a st' Hrun. apply HQ. specialize (Hm st). by rewrite Hrun in Hm.
Qed.

Lemma post_weaken {A} (m : M A) (st : state) (Q Q' : A → state → Prop) :
  post m st Q → (∀ a st', Q a st' → Q' a st') → post m st Q'.
Proof. intros Hm HQ a st' Hrun. by apply HQ, Hm. Qed.








Lemma total_ret {A} (a : A) : total (mret a : M A).
Proof. intros st. by exists a, st. Qed.

Lemma total_rep_append (e : entry) : total (rep_append e).
Proof. intros st. by eexists _, _. Qed.

Lemma total_write (text : string) : total (write text).
Proof. intros st. by eexists _, _. Qed.

Lemma total_print (s : string) : total (print s).
Proof. apply total_write. Qed.


Lemma total_when (c : bool) (body : M unit) : total body → total (when c body).
Proof. destruct c; [done | intros _; apply total_ret]. Qed.


(** ** The parts of the hardware section *)

Lemma hardware_section_parts (w : world) :
  hardware_section w =
  (rep_append (nl +:+ "=== Hardware ===", VNone) ;;
   '(gpu_total_mem, nvidia_gpu_cnt) ← query_gpu_memory w;
   when (negb (nvidia_gpu_cnt =? 0))
     (rep_append ("nvidia gpus", VInt (Z.of_nat nvidia_gpu_cnt))) ;;
   device_block w gpu_total_mem nvidia_gpu_cnt ;;
   hardware_tail w).
Proof. reflexivity. Qed.

(** The query returns the parsed list and its length, or raises what the
    parsing raises. *)
Lemma query_gpu_memory_result (w : world) (st : state) :
  (query_gpu_memory w st).1 = (mem ← parsed_memory w; Ok (mem, length mem)).
Proof.
  unfold query_gpu_memory, parsed_memory.
  destruct (have_nvidia_smi w); [| reflexivity].
  destruct (nvidia_smi_query_gpu (subprocess w)) as [result | e]; [| reflexivity].
  destruct (succeeded result); [| reflexivity].
  rewrite run_bind. unfold lift.
  by destruct (mapM py_int _).
Qed.

Lemma decides_query_gpu_memory (w : world) :
  decides (query_gpu_memory w) (memory_answer_ok w).
Proof.
  intros st. unfold ok, memory_answer_ok.
  pose proof (query_gpu_memory_result w st) as Hres.
  destruct (query_gpu_memory w st) as [r st']. cbn [fst] in Hres. subst r.
  destruct (parsed_memory w) as [mem | e]; cbn; split; try done.
  - intros _. by eexists _, _.
  - by intros (a & st2 & [=]).
Qed.

Lemma post_query_gpu_memory (w : world) (st : state) :
  post (query_gpu_memory w) st
    (λ a st', a = (gpu_total_mem_of w, length (gpu_total_mem_of w)) ∧ grows st st').
Proof.
  intros a st' Hrun. split.
  - pose proof (query_gpu_memory_result w st) as Hres.
    rewrite Hrun in Hres. cbn [fst] in Hres. unfold gpu_total_mem_of.
    destruct (parsed_memory w) as [mem | e]; cbn in Hres; congruence.
  - pose proof (extends_query_gpu_memory w st) as Hg. by rewrite Hrun in Hg.
Qed.

(** ** The loop over the devices *)

Lemma device_line_ok (w : world) (mem : list Z) (i : nat) (st : state) :
  mem = [] ∨ i < length mem →
  device_line w mem i st =
  (Ok (), State (rep st ++ [device_entry w mem i]) (opt_mods st) (out st)).
Proof.
  intros Hi. unfold device_line, device_entry.
  destruct mem as [| m0 mem]; [reflexivity |].
  destruct Hi as [? | Hi]; [done |].
  destruct (lookup_lt_is_Some_2 (m0 :: mem) i Hi) as [m Hm].
  rewrite run_bind, run_bind. unfold lift, py_index. rewrite Hm. reflexivity.
Qed.

Lemma device_line_raise (w : world) (mem : list Z) (i : nat) (st : state) :
  mem ≠ [] → length mem ≤ i →
  device_line w mem i st = (Raise (IndexError "list index out of range"), st).
Proof.
  intros Hne Hi. unfold device_line.
  destruct mem as [| m0 mem]; [done |].
  rewrite run_bind, run_bind. unfold lift, py_index.
  by rewrite (lookup_ge_None_2 (m0 :: mem) i Hi).
Qed.

Lemma device_loop_ok (w : world) (mem : list Z) (n j : nat) (st : state) :
  mem = [] ∨ j + n ≤ length mem →
  for_each (seq j n) (device_line w mem) st =
  (Ok (), State (rep st ++ map (device_entry w mem) (seq j n)) (opt_mods st) (out st)).
Proof.
  revert j st. induction n as [| n IH]; intros j st Hn.
  - cbn. rewrite app_nil_r. by destruct st.
  - cbn [seq for_each map]. rewrite run_bind, device_line_ok by (destruct Hn; [by left | right; lia]).
    rewrite IH by (destruct Hn; [by left | right; lia]).
    cbn [rep opt_mods out]. by rewrite <- app_assoc.
Qed.

Lemma device_loop_raise (w : world) (mem : list Z) (n j : nat) (st : state) :
  mem ≠ [] → j ≤ length mem < j + n →
  ∃ st', for_each (seq j n) (device_line w mem) st
         = (Raise (IndexError "list index out of range"), st').
Proof.
  intros Hne. revert j st. induction n as [| n IH]; intros j st Hj; [lia |].
  cbn [seq for_each]. rewrite run_bind.
  destruct (decide (j < length mem)) as [Hlt | Hge].
  - rewrite device_line_ok by (by right). apply IH. lia.
  - rewrite device_line_raise by (done || lia). by eexists.
Qed.

Lemma decides_device_block (w : world) (mem : list Z) (cnt : nat) :
  decides (device_block w mem cnt) (device_lines_ok mem (cuda_device_count (torch w))).
Proof.
  intros st. unfold ok, device_block, device_lines_ok.
  set (n := cuda_device_count (torch w)).
  destruct (Nat.eqb_spec n 0) as [Hn | Hn]; cbn [negb].
  - rewrite Hn. split.
    + intros _. by destruct mem.
    + intros _. destruct (negb (cnt =? 0)); by eexists _, _.
  - rewrite run_bind. cbn [rep_append].
    destruct mem as [| m0 mem].
    + rewrite device_loop_ok by (by left). split; [done |]. intros _. by eexists _, _.
    + destruct (Nat.leb_spec n (length (m0 :: mem))) as [Hle | Hgt].
      * rewrite device_loop_ok by (right; lia). split; [done |]. intros _. by eexists _, _.
      * edestruct (device_loop_raise w (m0 :: mem) n 0) as [st' ->]; [done | lia |].
        split; [| done]. by intros (a & st2 & [=]).
Qed.

(** ** When each section returns *)

Lemma total_software_section (w : world) : total (software_section w).
Proof.
  intros st. destruct (software_section_run w st) as [suffix Hrun].
  by eexists _, _.
Qed.










(** ** What the report holds about the devices *)

Lemma post_any {A} (m : M A) (st : state) (Q : A → state → Prop) :
  (∀ a st', Q a st') → post m st Q.
Proof. intros HQ a st' _. apply HQ. Qed.

Lemma extends_device_block (w : world) (mem : list Z) (cnt : nat) :
  extends (device_block w mem cnt).
Proof. unfold device_block, device_line. repeat extends_step. Qed.

Lemma extends_hardware_tail (w : world) : extends (hardware_tail w).
Proof.
  unfold hardware_tail. pose proof (extends_cpu_name w). repeat extends_step.
Qed.

(** When the block of the devices returns it has appended [device_report]
    and nothing else. *)
Lemma post_device_block (w : world) (mem : list Z) (st : state) :
  post (device_block w mem (length mem)) st
    (λ _ st', st' = State (rep st ++ device_report w mem) (opt_mods st) (out st)).
Proof.
  intros [] st' Hrun.
  assert (Hok : device_lines_ok mem (cuda_device_count (torch w)) = true).
  { apply (decides_device_block w mem (length mem) st). by eexists _, _. }
  revert Hrun. unfold device_block, device_report, device_lines_ok in *.
  set (n := cuda_device_count (torch w)) in *.
  destruct (negb (n =? 0)).
  - rewrite run_bind. cbn [rep_append].
    rewrite device_loop_ok.
    + cbn [rep opt_mods out]. intros [= <-]. by rewrite <- app_assoc.
    + destruct mem; [by left | right]. apply Nat.leb_le in Hok. lia.
  - destruct (negb (length mem =? 0)); by intros [= <-].
Qed.

(** The number that the building of the report returns is torch's count. *)
Lemma post_hardware_tail_value (w : world) (st : state) :
  post (hardware_tail w) st (λ n _, n = cuda_device_count (torch w)).
Proof.
  unfold hardware_tail.
  repeat (apply post_bind, post_any; intros ? ?).
  by apply post_ret.
Qed.

Lemma post_build_report_value (w : world) (st : state) :
  post (build_report w) st (λ n _, n = cuda_device_count (torch w)).
Proof.
  unfold build_report. apply post_bind, post_any. intros _ st0.
  apply post_bind. rewrite hardware_section_parts.
  apply post_bind, post_any. intros _ st1.
  apply post_bind, post_any. intros [mem cnt] st2.
  apply post_bind, post_any. intros _ st3.
  apply post_bind, post_any. intros _ st4.
  eapply post_weaken; [apply post_hardware_tail_value |].
  intros n st5 ->. apply post_bind, post_any. intros _ st6. by apply post_ret.
Qed.

(** X12: a report that has been built holds, side by side and in this
    order, the count of torch's devices, one entry per device in the order
    of the indices, each made of the memory that nvidia-smi printed on the
    line of that index (when there is an answer) and of the name torch
    gives, and then the entry of the machine; with no device it holds the
    line saying so in their place. *)
Theorem device_entries_in_report (w : world) (st st1 : state) (n : nat) :
  build_report w st = (Ok n, st1) →
  ∃ before after,
    rep st1 =
    before ++ device_report w (gpu_total_mem_of w)
      ++ [("machine", VStr (machine (platform w)))] ++ after.
Proof.
  revert n st1. change (post (build_report w) st (λ _ st1, ∃ before after,
    rep st1 = before ++ device_report w (gpu_total_mem_of w)
                ++ [("machine", VStr (machine (platform w)))] ++ after)).
  unfold build_report. apply post_bind, post_any. intros _ st0.
  apply post_bind.
  apply post_weaken with (Q := λ _ st2, ∃ before after,
    rep st2 = before ++ device_report w (gpu_total_mem_of w)
                ++ [("machine", VStr (machine (platform w)))] ++ after).
  - rewrite hardware_section_parts.
    apply post_bind, post_any. intros _ sa.
    apply post_bind. eapply post_weaken; [apply post_query_gpu_memory |].
    intros a sb [-> _]. cbn beta iota.
    apply post_bind, post_any. intros _ sc.
    apply post_bind. eapply post_weaken; [apply post_device_block |].
    intros _ sd ->.
    unfold hardware_tail. apply post_bind, post_rep_append.
    apply post_extends.
    { pose proof (extends_cpu_name w). repeat extends_step. }
    intros m se [[suffix Hrep] _ _]. cbn [rep] in Hrep.
    exists (rep sc), suffix. rewrite Hrep. by rewrite <- !app_assoc.
  - intros m st2 (before & after & Hrep).
    apply post_bind. apply post_extends; [apply extends_environment_section |].
    intros _ st3 [[suffix Hrep3] _ _]. apply post_ret.
    exists before, (after ++ suffix). rewrite Hrep3, Hrep. by rewrite <- !app_assoc.
Qed.

Lemma device_entries_in_report_witness :
  ∃ before after,
    rep (build_report (linux_gpu_host ("8192" +:+ nl +:+ "16384" +:+ nl)) initial).2 =
    before
      ++ [("torch devices", VInt 2);
          ("  - gpu0", VStr "8192MB | Tesla V100 #0");
          ("  - gpu1", VStr "16384MB | Tesla V100 #1")]
      ++ [("machine", VStr "x86_64")] ++ after.
Proof.
  apply (device_entries_in_report
           (linux_gpu_host ("8192" +:+ nl +:+ "16384" +:+ nl)) initial _ 2).
  vm_compute. reflexivity.
Defined.

(** ** The output of a run that returns *)

(** X10: when [show_env] returns, what it has written since the report was
    built is the opening fence, one line per entry, the trailer for torch's
    device count, the closing fence and the usage note, and nothing after
    it: [opt_mods] is empty in every configuration, so the suggestion to
    install optional packages is never printed.  The two lists are left as
    the building made them. *)
Theorem show_env_output (w : world) (show_nvidia_smi : bool) (st st' : state) :
  show_env w show_nvidia_smi st = (Ok (), st') →
  ∃ st1 keylen,
    build_report w st = (Ok (cuda_device_count (torch w)), st1) ∧
    keylen_of (rep st1) = Ok keylen ∧
    rep st' = rep st1 ∧
    opt_mods st' = [] ∧
    out st' =
    out st1
      ++ [opening_fence +:+ nl]
      ++ map (entry_text keylen) (rep st1)
      ++ trailer_text w show_nvidia_smi (cuda_device_count (torch w))
      ++ [closing_fence +:+ nl; usage_note +:+ nl].
Proof.
  intros Hrun.
  pose proof (build_report_opt_mods w st) as Hopt.
  destruct (build_report w st) as [[n | e] st1] eqn:Hbuild.
  - pose proof (post_build_report_value w st n st1 Hbuild) as ->.
    destruct (show_env_run w show_nvidia_smi _ _ _ Hbuild) as (keylen & Hkey & Hshow).
    rewrite Hshow in Hrun. injection Hrun as <-.
    cbn [snd] in Hopt. exists st1, keylen. cbn [rep opt_mods out].
    repeat split; [done.. |].
    unfold rendered. rewrite Hopt. cbn [opt_mods_text]. by rewrite app_nil_r.
  - unfold show_env in Hrun. by rewrite (run_bind_raise _ _ _ _ _ Hbuild) in Hrun.
Qed.

Lemma show_env_output_witness :
  ∃ st1 keylen,
    build_report linux_cpu_host initial = (Ok 0, st1) ∧
    keylen_of (rep st1) = Ok keylen ∧
    rep (show_env linux_cpu_host false initial).2 = rep st1 ∧
    opt_mods (show_env linux_cpu_host false initial).2 = [] ∧
    out (show_env linux_cpu_host false initial).2 =
    out st1
      ++ [opening_fence +:+ nl]
      ++ map (entry_text keylen) (rep st1)
      ++ ["no supported gpus found on this system" +:+ nl]
      ++ [closing_fence +:+ nl; usage_note +:+ nl].
Proof.
  apply (show_env_output linux_cpu_host false initial).
  vm_compute. reflexivity.
Defined.

(** X11: the flag changes nothing but the one write of the raw text.  The
    outcome and the two lists are the same with and without it; a run that
    raises, or one on a machine without nvidia-smi, is the same as a whole;
    and on a machine with nvidia-smi a run that returns writes, with the
    flag, exactly what it writes without it plus the raw text of
    nvidia-smi just before the closing fence. *)
Theorem show_nvidia_smi_only_adds_raw_text (w : world) (st : state) :
  (show_env w true st).1 = (show_env w false st).1 ∧
  rep (show_env w true st).2 = rep (show_env w false st).2 ∧
  opt_mods (show_env w true st).2 = opt_mods (show_env w false st).2 ∧
  (have_nvidia_smi w = false → show_env w true st = show_env w false st) ∧
  (∀ e, (show_env w false st).1 = Raise e → show_env w true st = show_env w false st) ∧
  (have_nvidia_smi w = true → (show_env w false st).1 = Ok () →
   ∃ before,
     out (show_env w false st).2 =
     before ++ [closing_fence +:+ nl; usage_note +:+ nl] ∧
     out (show_env w true st).2 =
     before ++ [(nl +:+ smi w) +:+ nl] ++ [closing_fence +:+ nl; usage_note +:+ nl]).
Proof.
  pose proof (build_report_opt_mods w st) as Hopt.
  destruct (build_report w st) as [[n | e] st1] eqn:Hbuild.
  - destruct (show_env_run w true _ _ _ Hbuild) as (k1 & Hk1 & ->).
    destruct (show_env_run w false _ _ _ Hbuild) as (k2 & Hk2 & ->).
    assert (k1 = k2) as -> by congruence.
    cbn [snd] in Hopt. cbn [fst snd rep opt_mods out].
    split; [done | split; [done | split; [done | split; [| split]]]].
    + intros Hhave. unfold rendered, trailer_text. by rewrite Hhave.
    + by intros e.
    + intros Hhave _. unfold rendered, trailer_text. rewrite Hhave, Hopt.
      cbn [opt_mods_text].
      exists (out st1 ++ [opening_fence +:+ nl] ++ map (entry_text k2) (rep st1)).
      rewrite !app_nil_r, <- !app_assoc. done.
  - unfold show_env. rewrite !(run_bind_raise _ _ _ _ _ Hbuild).
    split; [done | split; [done | split; [done | split; [done | split; [done |]]]]].
    by intros _ [=].
Qed.

Lemma show_nvidia_smi_only_adds_raw_text_witness :
  let w := linux_gpu_host ("8192" +:+ nl +:+ "16384" +:+ nl) in
  ∃ before,
    out (show_env w false initial).2 =
    before ++ [closing_fence +:+ nl; usage_note +:+ nl] ∧
    out (show_env w true initial).2 =
    before ++ [(nl +:+ smi_banner) +:+ nl] ++ [closing_fence +:+ nl; usage_note +:+ nl].
Proof.
  apply (show_nvidia_smi_only_adds_raw_text
           (linux_gpu_host ("8192" +:+ nl +:+ "16384" +:+ nl)) initial).
  - vm_compute. reflexivity.
  - vm_compute. reflexivity.
Defined.

(** ** The exception of a short memory answer *)

Lemma fails_bind_l {A B} (m : M A) (k : A → M B) (st : state) (e : exn) :
  fails m st e → fails (m ≫= k) st e.
Proof. intros [st' Hm]. exists st'. by apply run_bind_raise. Qed.

Lemma fails_bind_r {A B} (m : M A) (k : A → M B) (st : state) (e : exn) :
  ok m st → post m st (λ a st', fails (k a) st' e) → fails (m ≫= k) st e.
Proof.
  intros (a & st' & Hm) Hk. destruct (Hk a st' Hm) as [st2 Hrun].
  exists st2. by rewrite (run_bind_ok _ _ _ _ _ Hm).
Qed.

(** X14: on a machine whose tools print ASCII and whose counts are of
    printable size, when every line of the memory answer is an integer
    that [int] accepts but the answer has fewer
    lines than torch counts devices, [show_env] ends with IndexError at the
    first device without a line. *)
Theorem short_memory_answer_raises (w : world) (show_nvidia_smi : bool) (st : state) :
  ascii_outputs w = true →
  printable_values w = true →
  memory_answer_ok w = true →
  0 < length (gpu_total_mem_of w) < cuda_device_count (torch w) →
  fails (show_env w show_nvidia_smi) st (IndexError "list index out of range").
Proof.
  intros _ _ Hparse [Hne Hshort].
  unfold show_env. apply fails_bind_l.
  unfold build_report.
  apply fails_bind_r; [apply total_software_section | apply post_any; intros _ st0].
  apply fails_bind_l. rewrite hardware_section_parts.
  apply fails_bind_r; [apply total_rep_append | apply post_any; intros _ st1].
  apply fails_bind_r.
  { by apply decides_query_gpu_memory. }
  eapply post_weaken; [apply post_query_gpu_memory |].
  intros a st2 [-> _]. cbn beta iota.
  apply fails_bind_r;
    [apply total_when, total_rep_append | apply post_any; intros _ st3].
  apply fails_bind_l. unfold device_block.
  destruct (Nat.eqb_spec (cuda_device_count (torch w)) 0) as [? | _]; [lia |].
  cbn [negb].
  apply fails_bind_r; [apply total_rep_append | apply post_any; intros _ st4].
  apply device_loop_raise; [| lia].
  intros Hnil. rewrite Hnil in Hne. cbn in Hne. lia.
Qed.

Lemma short_memory_answer_raises_witness :
  fails (show_env (linux_gpu_host ("8192" +:+ nl)) false) initial
    (IndexError "list index out of range").
Proof.
  apply (short_memory_answer_raises (linux_gpu_host ("8192" +:+ nl)) false initial).
  - vm_compute. reflexivity.
  - vm_compute. reflexivity.
  - vm_compute. reflexivity.
  - vm_compute. lia.
Defined.

(** ** Entries that appear only under their guard *)

Lemma avoids_ret (label : string) {A} (a : A) : avoids label (mret a : M A).
Proof. by intros st Hst. Qed.

Lemma avoids_bind (label : string) {A B} (m : M A) (k : A → M B) :
  avoids label m → (∀ a, avoids label (k a)) → avoids label (m ≫= k).
Proof.
  intros Hm Hk st Hst. rewrite run_bind. specialize (Hm st Hst).
  destruct (m st) as [[a | e] st']; cbn [snd] in *; [by apply Hk | exact Hm].
Qed.

Lemma avoids_bind_post (label : string) {A B} (m : M A) (k : A → M B) (Q : A → Prop) :
  avoids label m → (∀ st, post m st (λ a _, Q a)) → (∀ a, Q a → avoids label (k a)) →
  avoids label (m ≫= k).
Proof.
  intros Hm HQ Hk st Hst. rewrite run_bind. specialize (Hm st Hst).
  destruct (m st) as [[a | e] st'] eqn:Hrun; cbn [snd] in *; [| exact Hm].
  by apply (Hk a (HQ _ _ _ Hrun)).
Qed.

Lemma avoids_lift (label : string) {A} (r : result A) : avoids label (lift r).
Proof. by intros st Hst. Qed.

Lemma avoids_rep_append (label : string) (e : entry) :
  e.1 ≠ label → avoids label (rep_append e).
Proof.
  intros He st Hst e' [Hin | ->%list_elem_of_singleton]%elem_of_app; [by apply Hst | done].
Qed.

Lemma avoids_opt_mods_append (label name : string) : avoids label (opt_mods_append name).
Proof. by intros st Hst. Qed.

Lemma avoids_write (label text : string) : avoids label (write text).
Proof. by intros st Hst. Qed.

Lemma avoids_print (label s : string) : avoids label (print s).
Proof. apply avoids_write. Qed.

Lemma avoids_when (label : string) (c : bool) (body : M unit) :
  (c = true → avoids label body) → avoids label (when c body).
Proof. destruct c; [by intros H; apply H | intros _; apply avoids_ret]. Qed.

Lemma avoids_for_each (label : string) {A} (l : list A) (body : A → M unit) :
  (∀ x, avoids label (body x)) → avoids label (for_each l body).
Proof.
  intros Hbody. induction l as [| x l IH]; [apply avoids_ret |].
  apply avoids_bind; [apply Hbody | intros _; exact IH].
Qed.

Lemma avoids_call (label : string) (r : result CompletedProcess) : avoids label (call r).
Proof.
  apply avoids_bind; [apply avoids_lift | intros c].
  apply avoids_bind; [apply avoids_write | intros _; apply avoids_ret].
Qed.

Lemma avoids_size_value (label : string) (bytes : Z) : avoids label (size_value bytes).
Proof. apply avoids_bind; [apply avoids_lift | intros r; apply avoids_ret]. Qed.

(** Two labels differ when their first four characters do. *)
Ltac label_ne :=
  cbn [fst];
  let H := fresh in
  intros H;
  first [ discriminate H
        | apply (f_equal (String.substring 0 4)) in H; vm_compute in H; discriminate H ].

Ltac avoids_step :=
  cbv beta iota;
  lazymatch goal with
  | |- avoids _ (rep_append _) => apply avoids_rep_append; label_ne
  | |- avoids _ (_ ≫= _) => apply avoids_bind; [| intros ?]
  | |- avoids _ (if ?c then _ else _) => destruct c
  | |- avoids _ (match ?x with _ => _ end) => destruct x
  | |- avoids _ (for_each _ _) => apply avoids_for_each; intros ?
  | |- avoids _ (when false _) => apply avoids_ret
  | |- avoids _ (when _ _) => apply avoids_when; intros _
  | |- avoids _ (mret _) => apply avoids_ret
  | |- avoids _ (lift _) => apply avoids_lift
  | |- avoids _ (print _) => apply avoids_print
  | |- avoids _ (call _) => apply avoids_call
  | |- avoids _ (size_value _) => apply avoids_size_value
  | |- avoids _ (opt_mods_append _) => apply avoids_opt_mods_append
  | |- avoids _ (query_gpu_memory _) => unfold query_gpu_memory
  | |- avoids _ (cpu_name _) => unfold cpu_name
  end.

(** The first step of the software section empties [rep]. *)
Lemma avoids_after_reset (label : string) {B} (k : M B) (st : state) :
  avoids label k →
  label_free label (((λ st, (Ok (), State [] [] (out st))) ≫= λ _, k) st).2.
Proof.
  intros Hk. rewrite run_bind. apply Hk. by intros e ?%elem_of_nil.
Qed.

Lemma label_free_build_report (label : string) (w : world) (st : state) :
  (∀ st0, label_free label (software_section w st0).2) →
  avoids label (hardware_section w) →
  avoids label (environment_section w) →
  label_free label (build_report w st).2.
Proof.
  intros Hsw Hhw Henv. unfold build_report. rewrite run_bind.
  specialize (Hsw st). destruct (software_section w st) as [[[] | e] st0]; [| exact Hsw].
  cbn [snd] in Hsw. revert Hsw. generalize st0.
  change (avoids label (torch_gpu_cnt ← hardware_section w;
                        environment_section w ;; mret torch_gpu_cnt)).
  apply avoids_bind; [exact Hhw | intros n].
  apply avoids_bind; [exact Henv | intros _; apply avoids_ret].
Qed.

Lemma parsed_memory_without_smi (w : world) :
  have_nvidia_smi w = false → gpu_total_mem_of w = [].
Proof. unfold gpu_total_mem_of, parsed_memory. by intros ->. Qed.

(** X13: the entries that the code guards are absent when their guard
    fails: no cuDNN entry without CUDA, no driver entry and no nvidia-gpus
    entry without nvidia-smi, no distro entry off Linux, and no CPU Name on
    a platform that is none of the three the code knows. *)
Theorem guarded_entries_absent (w : world) (st : state) :
  (cuda_is_available (torch w) = false →
   label_free "torch cudnn" (build_report w st).2) ∧
  (have_nvidia_smi w = false →
   label_free "nvidia driver" (build_report w st).2 ∧
   label_free "nvidia gpus" (build_report w st).2) ∧
  (system (platform w) ≠ "Linux" → label_free "distro" (build_report w st).2) ∧
  (startswith "darwin" (sys_platform w) = false →
   startswith "linux" (sys_platform w) = false →
   startswith "win32" (sys_platform w) = false →
   label_free "CPU Name" (build_report w st).2).
Proof.
  split; [| split; [| split]].
  - intros Hcuda. apply label_free_build_report.
    + intros st0. unfold software_section. rewrite Hcuda.
      apply avoids_after_reset. repeat avoids_step.
    + unfold hardware_section. repeat avoids_step.
    + unfold environment_section, module_truth. repeat avoids_step.
  - intros Hhave. split.
    + apply label_free_build_report.
      * intros st0. unfold software_section. rewrite Hhave.
        apply avoids_after_reset. repeat avoids_step.
      * unfold hardware_section. repeat avoids_step.
      * unfold environment_section, module_truth. repeat avoids_step.
    + apply label_free_build_report.
      * intros st0. unfold software_section.
        apply avoids_after_reset. repeat avoids_step.
      * unfold hardware_section.
        apply avoids_bind; [avoids_step | intros _].
        apply avoids_bind_post
          with (Q := λ a, a = (gpu_total_mem_of w, length (gpu_total_mem_of w))).
        { repeat avoids_step. }
        { intros st0. eapply post_weaken; [apply post_query_gpu_memory |].
          by intros a st' [-> _]. }
        intros a ->. rewrite (parsed_memory_without_smi w Hhave).
        cbn [length Nat.eqb negb]. repeat avoids_step.
      * unfold environment_section, module_truth. repeat avoids_step.
  - intros Hsys. apply label_free_build_report.
    + intros st0. unfold software_section.
      apply avoids_after_reset. repeat avoids_step.
    + unfold hardware_section. repeat avoids_step.
    + unfold environment_section, module_truth.
      rewrite bool_decide_eq_false_2 by done. repeat avoids_step.
  - intros Hdarwin Hlinux Hwin. apply label_free_build_report.
    + intros st0. unfold software_section.
      apply avoids_after_reset. repeat avoids_step.
    + unfold hardware_section, cpu_name. rewrite Hdarwin, Hlinux, Hwin.
      repeat avoids_step.
    + unfold environment_section, module_truth. repeat avoids_step.
Qed.

Lemma guarded_entries_absent_witness :
  label_free "torch cudnn" (build_report darwin_host initial).2 ∧
  label_free "nvidia driver" (build_report darwin_host initial).2 ∧
  label_free "nvidia gpus" (build_report darwin_host initial).2 ∧
  label_free "distro" (build_report darwin_host initial).2.
Proof.
  pose proof (guarded_entries_absent darwin_host initial) as (Hcudnn & Hsmi & Hdistro & _).
  split; [| split; [| split]].
  - apply Hcudnn. vm_compute. reflexivity.
  - apply Hsmi. vm_compute. reflexivity.
  - apply Hsmi. vm_compute. reflexivity.
  - apply Hdistro. vm_compute. discriminate.
Defined.
